(** * chatter-backend: the generic document repository, the users service
      and the cookie session manager, embedded and verified.

    The TypeScript sources embedded here are
      - [src/common/database/abstract.repository.ts]  (module [AbstractRepository])
      - [src/users/users.service.ts]                   (module [UsersService])
      - [src/auth/auth.service.ts]                     (module [AuthService])

    The code is glue over three collaborators that live outside the
    repository: the Mongoose model of a collection, the [Date] object of the
    JavaScript runtime and the bcrypt / JWT libraries.  Each of them gets a
    small executable model, written from what the sources' own comments and
    section 4 and 6 of the specification say about it, and from the
    documented behaviour of the libraries where the code leans on it (the
    casting of filters and updates by the schema of [user.entity.ts], the
    refusal of an invalid date by [response.cookie]); what is opaque by
    nature (identifier generation, the digest and signature functions, the
    zone offset of the host) is a parameter of the functions that use it. *)

From Stdlib Require Import ZArith Lia.
From stdpp Require Import base option list strings pretty gmap fin_maps relations.

Local Open Scope string_scope.
Local Open Scope list_scope.
Local Open Scope Z_scope.

(** ** Values and documents *)

(** A MongoDB identifier, [Types.ObjectId]: a 12-byte value, kept as the
    number its 24 hexadecimal digits denote. *)
Definition ObjectId := N.

(** The JavaScript values that reach the store.  [VPromise v] and
    [VRejectedPromise] are promise objects that have not been awaited (the
    first fulfils with [v], the second rejects): what a call of an [async]
    function is worth without [await]. *)
Inductive Value : Type :=
  | VString (s : string)
  | VObjectId (o : ObjectId)
  | VNumber (z : Z)
  | VBoolean (b : bool)
  | VPromise (v : Value)
  | VRejectedPromise.

#[global] Instance Value_eq_dec : EqDecision Value.
Proof. solve_decision. Defined.

(** A plain object: field name to value.  Documents, filters, inputs and
    the argument of [$set] are all plain objects. *)
Abbreviation Document := (gmap string Value).

(** [QueryFilter<TDocument>]: a conjunction of field-equality constraints;
    the empty filter matches every document (specification, section 4.1). *)
Abbreviation QueryFilter := (gmap string Value).

(** [UpdateQuery<TDocument>], in the two shapes the source documents:
    [{ email: 'new@example.com' }] and [{ $set: { status: 'active' } }].
    Mongoose sends both to the store as a [$set].  These are the updates
    that the sources write ([UsersService.update] sends a [$set]); the other
    update operators of MongoDB ([$inc], [$push], ...) are not embedded, and
    what is proved below of an update is proved of these two shapes. *)
Inductive UpdateQuery : Type :=
  | UpdateFields (fields : Document)
  | UpdateSet (fields : Document).

Definition set_of (u : UpdateQuery) : Document :=
  match u with
  | UpdateFields f => f
  | UpdateSet f => f
  end.

(** ** Exceptions, the world and the monad of effects *)

Inductive Exception : Type :=
  | NotFoundException (message : string)
  | DuplicateKeyError
  | ImmutableFieldError
  | MissingIdError
  | ConfigError (key : string)
  | BcryptError
  | InvalidSignature
  | Expired
  | CastError
  | TypeError.

Inductive Result (A : Type) : Type :=
  | Ok (a : A)
  | Throw (e : Exception).
Arguments Ok {A} a.
Arguments Throw {A} e.

(** One call of [logger.warn(message, filterQuery)]. *)
Record LogEntry := { log_message : string; log_filter : QueryFilter }.

(** Everything the services can read or change: the documents of the
    collection in insertion order, the identifiers generated so far, the
    wall clock in milliseconds since the epoch, the deployment
    configuration and the log. *)
Record World := {
  collection : list Document;
  issued : list ObjectId;
  clock : Z;
  config : gmap string Z;
  logged : list LogEntry;
}.

Definition with_collection (c : list Document) (w : World) : World :=
  {| collection := c; issued := issued w; clock := clock w;
     config := config w; logged := logged w |}.

Definition with_issued (i : list ObjectId) (w : World) : World :=
  {| collection := collection w; issued := i; clock := clock w;
     config := config w; logged := logged w |}.

Definition with_logged (l : list LogEntry) (w : World) : World :=
  {| collection := collection w; issued := issued w; clock := clock w;
     config := config w; logged := l |}.

(** An [async] method: it runs in a world and either returns or throws,
    leaving the world as it was at that point. *)
Definition M (A : Type) : Type := World → Result A * World.

Definition ret {A} (a : A) : M A := fun w => (Ok a, w).

Definition throw {A} (e : Exception) : M A := fun w => (Throw e, w).

(** [await]: run [c], continue with its value, propagate its exception. *)
Definition bind {A B} (c : M A) (k : A → M B) : M B :=
  fun w =>
    match c w with
    | (Ok a, w') => k a w'
    | (Throw e, w') => (Throw e, w')
    end.

Notation "'let*' x ':=' 'await' c 'in' k" := (bind c (fun x => k))
  (at level 10, x name, c at level 200, k at level 200).

(** A call without [await], sequenced the same way: a synchronous function,
    or an [async] one wrapped in [promise]. *)
Notation "'let*' x ':=' 'call' c 'in' k" := (bind c (fun x => k))
  (at level 10, x name, c at level 200, k at level 200).
Notation "'do' 'call' c 'in' k" := (bind c (fun _ => k))
  (at level 10, c at level 200, k at level 200).

Definition hex_digit (d : N) : Ascii.ascii :=
  if (d <? 10)%N then Ascii.ascii_of_N (48 + d) else Ascii.ascii_of_N (87 + d).

Fixpoint to_hex (digits : nat) (n : N) : string :=
  match digits with
  | O => EmptyString
  | S digits => to_hex digits (n / 16) +:+ String (hex_digit (n mod 16)) EmptyString
  end.

(** [objectId.toHexString()]: the 24 lower-case hexadecimal digits. *)
Definition toHexString (o : ObjectId) : string := to_hex 24 o.

(** The characters [0-9a-f]. *)
Definition is_lower_hex (c : Ascii.ascii) : bool :=
  let n := Ascii.N_of_ascii c in
  ((48 <=? n) && (n <=? 57) || (97 <=? n) && (n <=? 102))%N.

Fixpoint all_chars (P : Ascii.ascii → bool) (s : string) : bool :=
  match s with
  | EmptyString => true
  | String c s => P c && all_chars P s
  end.

(** The value of a hexadecimal digit, in either case. *)
Definition hex_value (c : Ascii.ascii) : option N :=
  let n := Ascii.N_of_ascii c in
  if ((48 <=? n) && (n <=? 57))%N then Some (n - 48)%N
  else if ((97 <=? n) && (n <=? 102))%N then Some (n - 87)%N
  else if ((65 <=? n) && (n <=? 70))%N then Some (n - 55)%N
  else None.

Fixpoint of_hex (s : string) (acc : N) : option N :=
  match s with
  | EmptyString => Some acc
  | String c s => d ← hex_value c; of_hex s (16 * acc + d)%N
  end.

(** [new Types.ObjectId(s)] for a string: an identifier for 24 hexadecimal
    digits, an error ([None]) for anything else. *)
Definition ObjectId_of_hex (s : string) : option ObjectId :=
  if decide (String.length s = 24%nat) then of_hex s 0%N else None.

(** ** The schema of the collection (user.entity.ts) *)

Inductive SchemaType : Type :=
  | SchemaString
  | SchemaObjectId.

(** [UserSchema]: the [_id] that [User] inherits from [AbstractEntity], and
    its two [@Prop()] strings.  It is the one schema registered
    (users.module.ts), and [collection] is the collection of its model. *)
Definition UserSchema : gmap string SchemaType :=
  {["_id" := SchemaObjectId; "email" := SchemaString;
    "password" := SchemaString]}.

(** ** The Mongoose model of the collection *)

Module Model.

(** Casting a value to the type of a path; [None] is a [CastError].  A
    string path takes what has a [toString] of its own (a number prints in
    decimal, as JavaScript prints the integers below 10^21), and no promise;
    an [ObjectId] path takes an [ObjectId], or its 24 hexadecimal digits. *)
Definition cast_value (type : SchemaType) (v : Value) : option Value :=
  match type, v with
  | SchemaString, VString s => Some (VString s)
  | SchemaString, VObjectId o => Some (VString (toHexString o))
  | SchemaString, VNumber z => Some (VString (pretty z))
  | SchemaString, VBoolean b => Some (VString (if b then "true" else "false"))
  | SchemaString, _ => None
  | SchemaObjectId, VObjectId o => Some (VObjectId o)
  | SchemaObjectId, VString s => VObjectId <$> ObjectId_of_hex s
  | SchemaObjectId, _ => None
  end.

(** In a filter, a path that the schema lacks is left as it is. *)
Definition cast_path (path : string) (v : Value) : option Value :=
  match UserSchema !! path with
  | Some type => cast_value type v
  | None => Some v
  end.

Definition cast_filter (filterQuery : QueryFilter) : Result QueryFilter :=
  if decide (map_Forall (λ path v, is_Some (cast_path path v)) filterQuery)
  then Ok (map_imap cast_path filterQuery)
  else Throw CastError.

(** In an update, a path that the schema lacks is dropped (strict mode). *)
Definition cast_update (fields : Document) : Result Document :=
  if decide (map_Forall (λ path v, is_Some (cast_path path v)) fields)
  then Ok (map_imap (λ path v, type ← UserSchema !! path; cast_value type v)
             fields)
  else Throw CastError.

(** A document matches a filter when the filter can be cast and the
    document carries every field of the cast filter with the same value. *)
Definition matches (filterQuery : QueryFilter) (doc : Document) : Prop :=
  match cast_filter filterQuery with
  | Ok cast => cast ⊆ doc
  | Throw _ => False
  end.

#[global] Instance matches_dec f d : Decision (matches f d).
Proof. unfold matches. destruct (cast_filter f); apply _. Defined.

(** The store refuses a [$set] that would give [_id] another value. *)
Definition apply_set (fields doc : Document) : Result Document :=
  match fields !! "_id" with
  | Some v =>
      if decide (doc !! "_id" = Some v) then Ok (fields ∪ doc)
      else Throw ImmutableFieldError
  | None => Ok (fields ∪ doc)
  end.

(** [document.save()]: insert at the end of the collection; [_id] is the
    primary key.  The input of [create] is an entity without its [_id]: its
    fields are those of the schema, of the schema's types, and are stored as
    they are given. *)
Definition save (doc : Document) : M Document := fun w =>
  match doc !! "_id" with
  | None => (Throw MissingIdError, w)
  | Some v =>
      if decide (Exists (λ d, d !! "_id" = Some v) (collection w))
      then (Throw DuplicateKeyError, w)
      else (Ok doc, with_collection (collection w ++ [doc]) w)
  end.

(** [model.findOne(filter).lean()]: the first matching document, or
    [null]; a filter that cannot be cast is an error. *)
Definition findOne (filterQuery : QueryFilter) : M (option Document) := fun w =>
  match cast_filter filterQuery with
  | Throw e => (Throw e, w)
  | Ok _ => (Ok (snd <$> list_find (matches filterQuery) (collection w)), w)
  end.

(** [model.find(filter).lean()]: every matching document. *)
Definition find (filterQuery : QueryFilter) : M (list Document) := fun w =>
  match cast_filter filterQuery with
  | Throw e => (Throw e, w)
  | Ok _ => (Ok (filter (matches filterQuery) (collection w)), w)
  end.

(** [model.findOneAndUpdate(filter, update, { new }).lean()]: the filter
    and the update are cast, then one indivisible step; the result is the
    document after the update when [new] is set, before it otherwise,
    [null] when nothing matches. *)
Definition findOneAndUpdate (filterQuery : QueryFilter)
    (update : UpdateQuery) (new : bool) : M (option Document) := fun w =>
  match cast_filter filterQuery, cast_update (set_of update) with
  | Throw e, _ => (Throw e, w)
  | _, Throw e => (Throw e, w)
  | Ok _, Ok fields =>
      match list_find (matches filterQuery) (collection w) with
      | None => (Ok None, w)
      | Some (i, doc) =>
          match apply_set fields doc with
          | Throw e => (Throw e, w)
          | Ok doc' =>
              (Ok (Some (if new then doc' else doc)),
               with_collection (<[i := doc']> (collection w)) w)
          end
      end
  end.

(** [model.findOneAndDelete(filter).lean()]: one indivisible step; the
    result is the removed document, [null] when nothing matches. *)
Definition findOneAndDelete (filterQuery : QueryFilter)
    : M (option Document) := fun w =>
  match cast_filter filterQuery with
  | Throw e => (Throw e, w)
  | Ok _ =>
      match list_find (matches filterQuery) (collection w) with
      | None => (Ok None, w)
      | Some (i, doc) =>
          (Ok (Some doc), with_collection (delete i (collection w)) w)
      end
  end.

(** [toJSON()] of a saved document (the schema has [versionKey: false]):
    its fields as a plain object. *)
Definition toJSON (doc : Document) : Document := doc.

End Model.

(** [logger.warn(message, filterQuery)] *)
Definition logger_warn (message : string) (filterQuery : QueryFilter) : M unit :=
  fun w => (Ok tt, with_logged (logged w ++ [{| log_message := message;
                                                log_filter := filterQuery |}]) w).

(** ** abstract.repository.ts *)

Module AbstractRepository.
Section WithObjectId.

(** [new Types.ObjectId()]: the generator sees the identifiers this
    process has produced. *)
Variable ObjectId_generate : list ObjectId → ObjectId.

Definition new_ObjectId : M ObjectId := fun w =>
  let o := ObjectId_generate (issued w) in
  (Ok o, with_issued (o :: issued w) w).

Definition create (document : Document) : M Document :=
  let* _id := await new_ObjectId in
  let createdDocument := <["_id" := VObjectId _id]> document in
  let* saved := await Model.save createdDocument in
  ret (Model.toJSON saved).

End WithObjectId.

Definition findOne (filterQuery : QueryFilter) : M Document :=
  let* document := await Model.findOne filterQuery in
  match document with
  | None =>
      do call logger_warn "Document was not found with filterQuery: " filterQuery in
      throw (NotFoundException "Document not found")
  | Some document => ret document
  end.

Definition findOneAndUpdate (filterQuery : QueryFilter)
    (update : UpdateQuery) : M Document :=
  let* document := await Model.findOneAndUpdate filterQuery update true in
  match document with
  | None =>
      do call logger_warn "Document was not found with filterQuery: " filterQuery in
      throw (NotFoundException "Document not found")
  | Some document => ret document
  end.

Definition find (filterQuery : QueryFilter) : M (list Document) :=
  Model.find filterQuery.

Definition findOneAndDelete (filterQuery : QueryFilter) : M Document :=
  let* document := await Model.findOneAndDelete filterQuery in
  match document with
  | None =>
      do call logger_warn "Document was not found with filterQuery: " filterQuery in
      throw (NotFoundException "Document not found")
  | Some document => ret document
  end.

End AbstractRepository.

(** ** users.service.ts *)

(** Calling an [async] function without [await]: the call returns at once
    with the promise of its outcome and never throws. *)
Definition promise {A} (inj : A → Value) (c : M A) : M Value := fun w =>
  match c w with
  | (Ok a, w') => (Ok (VPromise (inj a)), w')
  | (Throw _, w') => (Ok VRejectedPromise, w')
  end.

(** JavaScript truthiness of a property that may be absent. *)
Definition truthy (v : option Value) : bool :=
  match v with
  | None => false
  | Some (VString s) => negb (String.eqb s EmptyString)
  | Some (VNumber z) => negb (Z.eqb z 0)
  | Some (VBoolean b) => b
  | Some _ => true
  end.

Module UsersService.
Section WithCollaborators.

Variable ObjectId_generate : list ObjectId → ObjectId.

(** [bcrypt.hash(data, saltRounds)], as the capability
    "hash(plaintext) -> digest" of the specification. *)
Variable bcrypt_hash : string → N → string.

(** [bcrypt.hash] rejects data that is not a string. *)
Definition bcrypt_hash_async (data : option Value) (saltRounds : N) : M string :=
  match data with
  | Some (VString s) => ret (bcrypt_hash s saltRounds)
  | _ => throw BcryptError
  end.

Definition hashPassword (password : option Value) : M string :=
  let* digest := await bcrypt_hash_async password 10 in
  ret digest.

Definition create (createUserInput : Document) : M Document :=
  let* password := await hashPassword (createUserInput !! "password") in
  AbstractRepository.create ObjectId_generate
    (<["password" := VString password]> createUserInput).

Definition findAll : M (list Document) :=
  let* users := await AbstractRepository.find ∅ in
  ret users.

Definition findOne (_id : string) : M Document :=
  let* user := await AbstractRepository.findOne {["_id" := VString _id]} in
  ret user.

(** The object literal under [$set]: the input, and over it the promise
    of the digest when the input carries a truthy password. *)
Definition update_set (updateUserInput : Document) : M Document :=
  if truthy (updateUserInput !! "password") then
    let* password := call promise VString
                       (hashPassword (updateUserInput !! "password")) in
    ret (<["password" := password]> updateUserInput)
  else ret updateUserInput.

Definition update (_id : string) (updateUserInput : Document) : M Document :=
  let* fields := await update_set updateUserInput in
  let* user := await AbstractRepository.findOneAndUpdate
                 {["_id" := VString _id]} (UpdateSet fields) in
  ret user.

Definition remove (_id : string) : M Document :=
  let* user := await AbstractRepository.findOneAndDelete
                 {["_id" := VString _id]} in
  ret user.

End WithCollaborators.
End UsersService.

(** ** The [Date] object of the runtime (ECMAScript, section 21.4) *)

Module JSDate.

(** A time value: milliseconds since the epoch, or [None] for [NaN]
    (an invalid date). *)
Definition Date := option Z.

Definition msPerSecond : Z := 1000.
Definition msPerMinute : Z := 60000.
Definition msPerHour : Z := 3600000.
Definition msPerDay : Z := 86400000.

Definition Day (t : Z) : Z := t / msPerDay.
Definition HourFromTime (t : Z) : Z := (t / msPerHour) mod 24.
Definition MinFromTime (t : Z) : Z := (t / msPerMinute) mod 60.
Definition SecFromTime (t : Z) : Z := (t / msPerSecond) mod 60.
Definition msFromTime (t : Z) : Z := t mod msPerSecond.

Definition MakeTime (hour min sec ms : Z) : Z :=
  hour * msPerHour + min * msPerMinute + sec * msPerSecond + ms.

Definition MakeDate (day time : Z) : Z := day * msPerDay + time.

Definition TimeClip (time : Z) : Date :=
  if 8640000000000000 <? Z.abs time then None else Some time.

Section WithZone.

(** [LocalTZA(t, isUTC)]: the offset of the host's zone in milliseconds,
    at the instant [t] when [isUTC], at the local time [t] otherwise. *)
Variable LocalTZA : Z → bool → Z.

Definition LocalTime (t : Z) : Z := t + LocalTZA t true.
Definition UTC (t : Z) : Z := t - LocalTZA t false.

(** [date.getSeconds()]; [None] is [NaN]. *)
Definition getSeconds (date : Date) : option Z :=
  t ← date; Some (SecFromTime (LocalTime t)).

(** [date.setSeconds(sec)]: the new time value of [date]. *)
Definition setSeconds (date : Date) (sec : option Z) : Date :=
  t ← date; s ← sec;
  let t := LocalTime t in
  let milli := msFromTime t in
  let date := MakeDate (Day t) (MakeTime (HourFromTime t) (MinFromTime t) s milli) in
  TimeClip (UTC date).

End WithZone.

(** [new Date()] *)
Definition now : M Date := fun w => (Ok (Some (clock w)), w).

End JSDate.

(** [configService.getOrThrow<number>(key)] *)
Definition getOrThrow (key : string) : M Z := fun w =>
  match config w !! key with
  | Some n => (Ok n, w)
  | None => (Throw (ConfigError key), w)
  end.

(** ** JSON, tokens and the response *)

(** What travels in a response body or inside a token. *)
#[local] Unset Elimination Schemes.
Inductive Json : Type :=
  | JString (s : string)
  | JBoolean (b : bool)
  | JObject (members : list (string * Json)).
#[local] Set Elimination Schemes.

(** The names of the members of an object, at every depth. *)
Fixpoint member_names (j : Json) : list string :=
  match j with
  | JObject members =>
      flat_map (λ m, fst m :: member_names (snd m)) members
  | _ => []
  end.

(** user.entity.ts: [_id] from [AbstractEntity], [email], [password]. *)
Record User := { _id : ObjectId; email : string; password : string }.

Module JwtService.

(** A signed token: the payload handed to [sign], the two registered
    time claims and the signature over all three. *)
Record Token := {
  payload : Json;
  issuedAt : Z;
  expiresAt : Z;
  signature : N;
}.

Section WithSecret.

(** The keyed digest of the claims under the server-held secret. *)
Variable hmac : Json → Z → Z → N.

(** Modelled from the spec: the signing options of [JwtService] are set in
    [auth.module.ts], which is not part of the sources at hand.  Section 4.3
    and 6 give them: the token embeds [issuedAt = now] and
    [expiresAt = now + JWT_EXPIRATION] seconds, and is signed. *)
Definition sign (tokenPayload : Json) : M Token := fun w =>
  match config w !! "JWT_EXPIRATION" with
  | None => (Throw (ConfigError "JWT_EXPIRATION"), w)
  | Some expiration =>
      let iat := clock w in
      let exp := iat + expiration * 1000 in
      (Ok {| payload := tokenPayload; issuedAt := iat; expiresAt := exp;
             signature := hmac tokenPayload iat exp |}, w)
  end.


End WithSecret.
End JwtService.

(** The value of a cookie: a token (its compact serialization is left
    out) or plain text. *)
Inductive CookieValue : Type :=
  | TokenValue (token : JwtService.Token)
  | TextValue (text : string).

(** One cookie set on the response. *)
Record Cookie := {
  cookie_name : string;
  cookie_value : CookieValue;
  httpOnly : bool;
  expires : JSDate.Date;
}.

(** The part of the express response the services write to: the cookies
    set so far, oldest first. *)
Record Response := { cookies : list Cookie }.

(** [response.cookie(name, value, { httpOnly, expires })]: express refuses
    an [expires] that is an invalid date with a [TypeError]. *)
Definition response_cookie (name : string) (value : CookieValue)
    (httpOnly : bool) (expires : JSDate.Date) (response : Response)
    : M Response :=
  match expires with
  | None => throw TypeError
  | Some _ =>
      ret {| cookies := cookies response ++
               [{| cookie_name := name; cookie_value := value;
                   httpOnly := httpOnly; expires := expires |}] |}
  end.

(** ** auth.service.ts *)

Module AuthService.
Section WithCollaborators.

Variable LocalTZA : Z → bool → Z.
Variable hmac : Json → Z → Z → N.

Definition login (user : User) (response : Response) : M (Json * Response) :=
  let* expires := call JSDate.now in
  let seconds := JSDate.getSeconds LocalTZA expires in
  let* expiration := call getOrThrow "JWT_EXPIRATION" in
  let expires :=
    JSDate.setSeconds LocalTZA expires (s ← seconds; Some (s + expiration)) in
  let tokenPayload :=
    JObject [("_id", JString (toHexString (_id user)));
             ("email", JString (email user))] in
  let* token := call JwtService.sign hmac tokenPayload in
  let* response :=
    call response_cookie "Authentication" (TokenValue token) true expires
           response in
  ret (JObject [("success", JBoolean true);
                ("user", JObject [("_id", JString (toHexString (_id user)));
                                  ("email", JString (email user))])],
       response).

Definition logout (response : Response) : M Response :=
  let* expires := call JSDate.now in
  let* response :=
    call response_cookie "Authentication" (TextValue EmptyString) true expires
           response in
  ret response.

End WithCollaborators.
End AuthService.

(** ** auth.controller.ts *)

(** The two routes of the controller.  The guard in front of [login] and the
    decorator that supplies [user] belong to the framework; the handlers
    start where the user is already known. *)
Module AuthController.
Section WithCollaborators.

Variable LocalTZA : Z → bool → Z.
Variable hmac : Json → Z → Z → N.

Definition login (user : User) (response : Response) : M (Json * Response) :=
  AuthService.login LocalTZA hmac user response.

(** The handler returns nothing: the response goes out with no body. *)
Definition logout (response : Response) : M (unit * Response) :=
  let* response := call AuthService.logout response in
  ret (tt, response).

End WithCollaborators.
End AuthController.

(** ** Well-formed collections and histories *)

(** [_id] is the primary key of the collection: every stored document has
    one and no two share it. *)
Definition doc_id (doc : Document) : option Value := doc !! "_id".

Definition wf_collection (c : list Document) : Prop :=
  Forall (λ doc, is_Some (doc_id doc)) c ∧ NoDup (doc_id <$> c).

(** A world is well formed when its collection is, and every [ObjectId] in
    it came out of the generator of this process. *)
Definition wf (w : World) : Prop :=
  wf_collection (collection w) ∧
  Forall (λ doc, ∀ o, doc_id doc = Some (VObjectId o) → o ∈ issued w)
         (collection w).

(** What can happen to a world between two moments: a call of one of the
    five operations of the repository, or the clock moving. *)
Inductive Event : Type :=
  | CallCreate (document : Document)
  | CallFindOne (filterQuery : QueryFilter)
  | CallFindOneAndUpdate (filterQuery : QueryFilter) (update : UpdateQuery)
  | CallFind (filterQuery : QueryFilter)
  | CallFindOneAndDelete (filterQuery : QueryFilter)
  | Tick (time : Z).

Definition after (ObjectId_generate : list ObjectId → ObjectId)
    (e : Event) (w : World) : World :=
  match e with
  | CallCreate d => snd (AbstractRepository.create ObjectId_generate d w)
  | CallFindOne f => snd (AbstractRepository.findOne f w)
  | CallFindOneAndUpdate f u => snd (AbstractRepository.findOneAndUpdate f u w)
  | CallFind f => snd (AbstractRepository.find f w)
  | CallFindOneAndDelete f => snd (AbstractRepository.findOneAndDelete f w)
  | Tick t =>
      {| collection := collection w; issued := issued w; clock := t;
         config := config w; logged := logged w |}
  end.

(** [later g w w']: the world [w'] is [w] after some events. *)
Definition later (ObjectId_generate : list ObjectId → ObjectId)
    : World → World → Prop :=
  rtc (λ w w', ∃ e, w' = after ObjectId_generate e w).

(** [partial_replacement fields w doc' w']: going from [w] to [w'], one
    stored document was replaced in place by [doc']; [doc'] keeps the [_id]
    and every field that [fields] does not name, and has no field beyond
    the old ones and those of [fields]; the other documents are as before. *)
Definition partial_replacement (fields : Document) (w : World)
    (doc' : Document) (w' : World) : Prop :=
  ∃ (i : nat) (doc : Document),
    collection w !! i = Some doc
    ∧ collection w' = <[i := doc']> (collection w)
    ∧ doc_id doc' = doc_id doc
    ∧ (∀ k, fields !! k = None → doc' !! k = doc !! k)
    ∧ dom doc' ⊆ dom doc ∪ dom fields.

(** ** Sample collaborators and worlds, for running the definitions *)

Module Sample.

(** A generator that counts upwards from the largest identifier issued. *)
Definition next_ObjectId (l : list ObjectId) : ObjectId :=
  N.succ (foldr N.max 0%N l).

(** A digest that is recognisably not its input. *)
Definition digest (data : string) (saltRounds : N) : string :=
  "$2b$" +:+ data.

Definition mac (p : Json) (iat exp : Z) : N := Z.to_N (iat + exp).

(** A host on UTC. *)
Definition utc (t : Z) (isUTC : bool) : Z := 0.

Definition empty_world : World :=
  {| collection := []; issued := []; clock := 1700000000123;
     config := {["JWT_EXPIRATION" := 3600]}; logged := [] |}.

Definition alice : Document :=
  {["_id" := VObjectId 1%N; "email" := VString "alice@example.com";
    "password" := VString "$2b$secret"]}.

Definition bob : Document :=
  {["_id" := VString "b0b"; "email" := VString "bob@example.com";
    "password" := VString "$2b$hunter2"]}.

Definition two_users : World :=
  {| collection := [alice; bob]; issued := [1%N]; clock := 1700000000123;
     config := {["JWT_EXPIRATION" := 3600]}; logged := [] |}.

Definition carol : User :=
  {| _id := 255%N; email := "carol@example.com"; password := "$2b$one" |}.

Definition carol' : User :=
  {| _id := 255%N; email := "carol@example.com"; password := "$2b$two" |}.

Definition no_cookies : Response := {| cookies := [] |}.

(** The input of a sign-up, a filter and two updates. *)
Definition dave : Document :=
  {["email" := VString "dave@example.com"; "password" := VString "hunter2"]}.

Definition by_email (address : string) : QueryFilter :=
  {["email" := VString address]}.

Definition move_alice : UpdateQuery :=
  UpdateSet {["email" := VString "alice@example.org"]}.

(** The input of a sign-up without a password. *)
Definition anonymous : Document := {["email" := VString "eve@example.com"]}.

(** A host on the east coast of the United States around the night of 9
    March 2025, when its clocks went from 02:00 to 03:00 (07:00 UTC): five
    hours behind UTC before, four after.  A local time that the jump skips
    is read with the offset before it. *)
Definition spring_forward : Z := 1741503600000.

Definition eastern (t : Z) (isUTC : bool) : Z :=
  if isUTC then
    if t <? spring_forward then -18000000 else -14400000
  else
    if t <? spring_forward - 14400000 then -18000000 else -14400000.

(** Half past one that night, with sessions of two hours. *)
Definition that_night : World :=
  {| collection := []; issued := []; clock := spring_forward - 1800000;
     config := {["JWT_EXPIRATION" := 7200]}; logged := [] |}.

(** Sessions longer than any date. *)
Definition forever : World :=
  {| collection := []; issued := []; clock := 1700000000123;
     config := {["JWT_EXPIRATION" := 9000000000000]}; logged := [] |}.

Definition unconfigured : World :=
  {| collection := []; issued := []; clock := 1700000000123;
     config := ∅; logged := [] |}.

(** Two members that [create] stored, Alice under identifier 1 and Erin
    under identifier 2, and the string a client sends for Alice. *)
Definition erin : Document :=
  {["_id" := VObjectId 2%N; "email" := VString "erin@example.com";
    "password" := VString "$2b$tr0ub4dor"]}.

Definition members : World :=
  {| collection := [alice; erin]; issued := [2%N; 1%N]; clock := 1700000000123;
     config := {["JWT_EXPIRATION" := 3600]}; logged := [] |}.

Definition alice_id : string := "000000000000000000000001".

(** Alice's move written without [$set], and an identifier that is not
    one. *)
Definition move_alice_bare : UpdateQuery :=
  UpdateFields {["email" := VString "alice@example.org"]}.

Definition malformed : QueryFilter := {["_id" := VString "b0b"]}.

(** Inputs of [UsersService.update] for Alice: a new address, a new
    password, an empty password. *)
Definition new_address : Document := {["email" := VString "alice@example.org"]}.

Definition new_password : Document := {["password" := VString "correct horse"]}.

Definition no_password : Document := {["password" := VString EmptyString]}.



End Sample.

(** * Properties *)

(** ** Hexadecimal strings *)

Section Hex.

Lemma length_append (s1 s2 : string) :
  String.length (s1 +:+ s2) = (String.length s1 + String.length s2)%nat.
Proof. induction s1 as [|c s1 IH]; simpl; [done|]. by rewrite IH. Qed.

Lemma all_chars_append P (s1 s2 : string) :
  all_chars P (s1 +:+ s2) = all_chars P s1 && all_chars P s2.
Proof.
  induction s1 as [|c s1 IH]; simpl; [done|].
  by rewrite IH, andb_assoc.
Qed.

Lemma hex_digit_cases d :
  (d < 16)%N →
  d ∈ [0; 1; 2; 3; 4; 5; 6; 7; 8; 9; 10; 11; 12; 13; 14; 15]%N.
Proof. intros Hd. rewrite !elem_of_cons. lia. Qed.

Lemma hex_digit_is_lower_hex d :
  (d < 16)%N → is_lower_hex (hex_digit d) = true.
Proof.
  intros Hin%hex_digit_cases. rewrite !elem_of_cons in Hin.
  repeat (destruct Hin as [->|Hin]; [reflexivity|]).
  by apply elem_of_nil in Hin.
Qed.

Lemma hex_value_hex_digit d :
  (d < 16)%N → hex_value (hex_digit d) = Some d.
Proof.
  intros Hin%hex_digit_cases. rewrite !elem_of_cons in Hin.
  repeat (destruct Hin as [->|Hin]; [reflexivity|]).
  by apply elem_of_nil in Hin.
Qed.

Lemma to_hex_length digits n : String.length (to_hex digits n) = digits.
Proof.
  revert n. induction digits as [|digits IH]; intros n; simpl; [done|].
  rewrite length_append, IH. simpl. lia.
Qed.

Lemma to_hex_lower_hex digits n : all_chars is_lower_hex (to_hex digits n) = true.
Proof.
  revert n. induction digits as [|digits IH]; intros n; simpl; [done|].
  rewrite all_chars_append, IH. simpl.
  rewrite hex_digit_is_lower_hex; [done|]. by apply N.mod_lt.
Qed.

(** [toHexString] yields 24 characters out of [0-9a-f]. *)
Lemma toHexString_shape o :
  String.length (toHexString o) = 24%nat
  ∧ all_chars is_lower_hex (toHexString o) = true.
Proof. split; [apply to_hex_length|apply to_hex_lower_hex]. Qed.

Lemma of_hex_append (s1 s2 : string) acc :
  of_hex (s1 +:+ s2) acc = of_hex s1 acc ≫= of_hex s2.
Proof.
  revert acc. induction s1 as [|c s1 IH]; intros acc; simpl; [done|].
  destruct (hex_value c) as [d|]; simpl; [apply IH|done].
Qed.

Lemma of_hex_to_hex digits n acc :
  of_hex (to_hex digits n) acc
  = Some (acc * 16 ^ N.of_nat digits + n mod 16 ^ N.of_nat digits)%N.
Proof.
  revert n acc. induction digits as [|digits IH]; intros n acc.
  - simpl. rewrite N.mod_1_r. f_equal. lia.
  - simpl to_hex. rewrite of_hex_append, IH. simpl.
    rewrite hex_value_hex_digit by by apply N.mod_lt. simpl. f_equal.
    rewrite Nat2N.inj_succ, N.pow_succ_r', N.Div0.mod_mul_r. lia.
Qed.

(** Reading back the digits of an identifier of twelve bytes gives the
    identifier. *)
Lemma ObjectId_of_hex_toHexString (o : ObjectId) :
  (o < 2 ^ 96)%N → ObjectId_of_hex (toHexString o) = Some o.
Proof.
  intros Ho. unfold ObjectId_of_hex, toHexString.
  rewrite decide_True by apply to_hex_length.
  rewrite of_hex_to_hex. f_equal.
  change (16 ^ N.of_nat 24)%N with (2 ^ 96)%N.
  rewrite N.mod_small by done. lia.
Qed.

End Hex.

(** ** The model of the collection: casting and matching *)

Section ModelFacts.

Implicit Types (doc : Document) (o : ObjectId).

Lemma cast_path_id_string s :
  Model.cast_path "_id" (VString s) = VObjectId <$> ObjectId_of_hex s.
Proof. reflexivity. Qed.

Lemma cast_path_id o :
  Model.cast_path "_id" (VObjectId o) = Some (VObjectId o).
Proof. reflexivity. Qed.

Lemma cast_filter_singleton path v :
  Model.cast_filter {[path := v]}
  = match Model.cast_path path v with
    | Some v' => Ok {[path := v']}
    | None => Throw CastError
    end.
Proof.
  unfold Model.cast_filter.
  destruct (Model.cast_path path v) as [v'|] eqn:Hcast.
  - rewrite decide_True by (apply map_Forall_singleton; rewrite Hcast; eauto).
    f_equal. rewrite <- insert_empty.
    by rewrite (map_imap_insert_Some _ _ _ _ v'), map_imap_empty.
  - rewrite decide_False; [done|].
    intros Hall%map_Forall_singleton. rewrite Hcast in Hall.
    by destruct Hall.
Qed.

Lemma cast_filter_empty : Model.cast_filter ∅ = Ok ∅.
Proof.
  unfold Model.cast_filter.
  rewrite decide_True by apply map_Forall_empty. by rewrite map_imap_empty.
Qed.

(** A filter on [_id] by an identifier is cast to itself; by the
    hexadecimal string of an identifier, to that identifier. *)
Lemma cast_filter_id o :
  Model.cast_filter {["_id" := VObjectId o]} = Ok {["_id" := VObjectId o]}.
Proof. by rewrite cast_filter_singleton, cast_path_id. Qed.

Lemma cast_filter_hex o :
  (o < 2 ^ 96)%N →
  Model.cast_filter {["_id" := VString (toHexString o)]}
  = Ok {["_id" := VObjectId o]}.
Proof.
  intros Ho. rewrite cast_filter_singleton, cast_path_id_string.
  by rewrite ObjectId_of_hex_toHexString.
Qed.

Lemma matches_cast filterQuery cast doc :
  Model.cast_filter filterQuery = Ok cast →
  Model.matches filterQuery doc ↔ cast ⊆ doc.
Proof. intros Hcast. unfold Model.matches. by rewrite Hcast. Qed.

Lemma matches_castable filterQuery doc :
  Model.matches filterQuery doc → ∃ cast, Model.cast_filter filterQuery = Ok cast.
Proof. unfold Model.matches. destruct (Model.cast_filter _); [eauto|done]. Qed.

Lemma matches_id o doc :
  Model.matches {["_id" := VObjectId o]} doc ↔ doc !! "_id" = Some (VObjectId o).
Proof.
  rewrite (matches_cast _ _ _ (cast_filter_id o)).
  apply map_singleton_subseteq_l.
Qed.

Lemma matches_hex o doc :
  (o < 2 ^ 96)%N →
  Model.matches {["_id" := VString (toHexString o)]} doc
  ↔ doc !! "_id" = Some (VObjectId o).
Proof.
  intros Ho. rewrite (matches_cast _ _ _ (cast_filter_hex o Ho)).
  apply map_singleton_subseteq_l.
Qed.

Lemma matches_empty doc : Model.matches ∅ doc.
Proof.
  rewrite (matches_cast _ _ _ cast_filter_empty). apply map_empty_subseteq.
Qed.

(** A string that is not an identifier makes a filter on [_id] that cannot
    be cast. *)
Lemma cast_filter_not_hex s :
  ObjectId_of_hex s = None →
  Model.cast_filter {["_id" := VString s]} = Throw CastError.
Proof.
  intros Hs. by rewrite cast_filter_singleton, cast_path_id_string, Hs.
Qed.

End ModelFacts.

(** ** Reads: [findOne] and [find] *)

Ltac run_monad :=
  unfold bind, ret, throw, logger_warn; simpl.

#[local] Arguments Model.matches : simpl never.
#[local] Arguments Model.cast_filter : simpl never.
#[local] Arguments Model.cast_update : simpl never.
#[local] Arguments toHexString : simpl never.
#[local] Arguments ObjectId_of_hex : simpl never.

Section Reads.

Implicit Types (filterQuery : QueryFilter) (w : World).

(** What [findOne] does, by cases on the cast and on the search. *)
Lemma findOne_found filterQuery w i doc :
  list_find (Model.matches filterQuery) (collection w) = Some (i, doc) →
  AbstractRepository.findOne filterQuery w = (Ok doc, w).
Proof.
  intros Hfind. pose proof Hfind as (_ & [cast Hcast]%matches_castable & _)%list_find_Some.
  unfold AbstractRepository.findOne, Model.findOne.
  run_monad. by rewrite Hcast, Hfind.
Qed.

Lemma findOne_missing filterQuery cast w :
  Model.cast_filter filterQuery = Ok cast →
  list_find (Model.matches filterQuery) (collection w) = None →
  AbstractRepository.findOne filterQuery w =
    (Throw (NotFoundException "Document not found"),
     with_logged (logged w ++
       [{| log_message := "Document was not found with filterQuery: ";
           log_filter := filterQuery |}]) w).
Proof.
  intros Hcast Hfind. unfold AbstractRepository.findOne, Model.findOne.
  run_monad. by rewrite Hcast, Hfind.
Qed.

Lemma findOne_uncastable filterQuery e w :
  Model.cast_filter filterQuery = Throw e →
  AbstractRepository.findOne filterQuery w = (Throw e, w).
Proof.
  intros Hcast. unfold AbstractRepository.findOne, Model.findOne.
  run_monad. by rewrite Hcast.
Qed.

(** [findOne] hands out stored documents only. *)
Lemma findOne_returns_stored filterQuery w doc w' :
  AbstractRepository.findOne filterQuery w = (Ok doc, w') →
  doc ∈ collection w ∧ Model.matches filterQuery doc ∧ w' = w.
Proof.
  destruct (Model.cast_filter filterQuery) as [cast|e] eqn:Hcast;
    [|by rewrite (findOne_uncastable _ _ _ Hcast)].
  destruct (list_find (Model.matches filterQuery) (collection w))
    as [[i d]|] eqn:Hfind.
  - rewrite (findOne_found _ _ _ _ Hfind). intros [= <- <-].
    apply list_find_Some in Hfind as (Hi & Hm & _).
    eauto using list_elem_of_lookup_2.
  - by rewrite (findOne_missing _ _ _ Hcast Hfind).
Qed.

(** [find] returns for every filter that can be cast, and throws the
    error of the cast for the others. *)
Lemma find_castable filterQuery cast w :
  Model.cast_filter filterQuery = Ok cast →
  AbstractRepository.find filterQuery w =
    (Ok (filter (Model.matches filterQuery) (collection w)), w).
Proof.
  intros Hcast. unfold AbstractRepository.find, Model.find. by rewrite Hcast.
Qed.

Lemma find_uncastable filterQuery e w :
  Model.cast_filter filterQuery = Throw e →
  AbstractRepository.find filterQuery w = (Throw e, w).
Proof.
  intros Hcast. unfold AbstractRepository.find, Model.find. by rewrite Hcast.
Qed.

Lemma filter_nothing filterQuery (c : list Document) :
  Forall (λ doc, ¬ Model.matches filterQuery doc) c →
  filter (Model.matches filterQuery) c = [].
Proof.
  induction 1 as [|d c Hd _ IH]; [done|].
  by rewrite filter_cons_False.
Qed.

(** C4, as amended.  For a filter that can be cast to the schema and that
    no stored document matches, [findOne] throws [NotFoundException] (it
    returns no entity of any kind, and leaves the collection alone), while
    [find] returns the empty sequence without throwing. *)
Theorem findOne_NotFound_find_empty filterQuery cast w :
  Model.cast_filter filterQuery = Ok cast →
  Forall (λ doc, ¬ Model.matches filterQuery doc) (collection w) →
  (∃ w', AbstractRepository.findOne filterQuery w =
           (Throw (NotFoundException "Document not found"), w')
         ∧ collection w' = collection w)
  ∧ AbstractRepository.find filterQuery w = (Ok [], w).
Proof.
  intros Hcast Hnone. split.
  - apply (proj2 (list_find_None _ _)) in Hnone.
    rewrite (findOne_missing _ _ _ Hcast Hnone). eauto.
  - rewrite (find_castable _ _ _ Hcast). by rewrite filter_nothing.
Qed.

End Reads.

(** ** The primary key *)

Section PrimaryKey.

Implicit Types (c : list Document) (doc : Document) (v : Value) (o : ObjectId).

(** In a well-formed collection, a search by [_id] finds the one document
    that carries it. *)
Lemma find_by_id c i doc o :
  wf_collection c → c !! i = Some doc → doc_id doc = Some (VObjectId o) →
  list_find (Model.matches {["_id" := VObjectId o]}) c = Some (i, doc).
Proof.
  intros [_ Hnodup] Hi Hid. apply list_find_Some. split_and!; [done| |].
  - by apply (proj2 (matches_id o doc)).
  - intros j d Hj Hlt Hm. apply (proj1 (matches_id o d)) in Hm.
    assert (j = i) as ->; [|lia].
    eapply NoDup_lookup; [exact Hnodup| |].
    + rewrite list_lookup_fmap, Hj. reflexivity.
    + rewrite list_lookup_fmap, Hi. simpl. unfold doc_id in *. congruence.
Qed.

(** Once that document is removed, no document carries its [_id]. *)
Lemma delete_removes_id c i doc o :
  wf_collection c → c !! i = Some doc → doc_id doc = Some (VObjectId o) →
  Forall (λ d, ¬ Model.matches {["_id" := VObjectId o]} d) (delete i c).
Proof.
  intros [_ Hnodup] Hi Hid. apply Forall_lookup. intros j d Hj Hm.
  apply (proj1 (matches_id o d)) in Hm. rewrite list_lookup_delete in Hj.
  assert ((if decide (j < i)%nat then j else S j) = i) as Heq.
  { eapply NoDup_lookup; [exact Hnodup| |].
    - rewrite list_lookup_fmap, Hj. reflexivity.
    - rewrite list_lookup_fmap, Hi. simpl. unfold doc_id in *. congruence. }
  case_decide; lia.
Qed.

(** A [$set] that the store accepts keeps [_id] and is the update laid
    over the old document. *)
Lemma apply_set_Ok fields doc doc' :
  Model.apply_set fields doc = Ok doc' →
  doc' = fields ∪ doc ∧ doc_id doc' = doc_id doc.
Proof.
  unfold Model.apply_set, doc_id.
  destruct (fields !! "_id") as [v|] eqn:Hv.
  - case_decide as Hd; [|done]. intros [= <-]. split; [done|].
    rewrite Hd. by apply lookup_union_Some_l.
  - intros [= <-]. split; [done|]. by apply lookup_union_r.
Qed.

(** The store accepts every [$set] that leaves [_id] out or repeats it. *)
Lemma apply_set_accepts fields doc :
  (fields !! "_id" = None ∨ fields !! "_id" = doc !! "_id") →
  is_Some (doc !! "_id") →
  Model.apply_set fields doc = Ok (fields ∪ doc).
Proof.
  unfold Model.apply_set. intros [Hnone|Hsame] [v Hv].
  - by rewrite Hnone.
  - rewrite Hsame, Hv. by rewrite decide_True.
Qed.

Lemma wf_collection_insert c i doc doc' :
  wf_collection c → c !! i = Some doc → doc_id doc' = doc_id doc →
  wf_collection (<[i := doc']> c).
Proof.
  intros [Hall Hnodup] Hi Hid. split.
  - apply Forall_insert; [done|]. rewrite Hid.
    by eapply (Forall_lookup_1 _ _ _ _ Hall).
  - rewrite list_fmap_insert, Hid, list_insert_id; [done|].
    by rewrite list_lookup_fmap, Hi.
Qed.

Lemma wf_collection_delete c i :
  wf_collection c → wf_collection (delete i c).
Proof.
  intros [Hall Hnodup]. split.
  - by apply Forall_delete.
  - rewrite list_fmap_delete. eapply sublist_NoDup; [done|].
    apply sublist_delete.
Qed.

Lemma wf_collection_snoc c doc v :
  wf_collection c → doc_id doc = Some v →
  ¬ Exists (λ d, d !! "_id" = Some v) c →
  wf_collection (c ++ [doc]).
Proof.
  intros [Hall Hnodup] Hid Hnew. split.
  - apply Forall_app. split; [done|]. apply Forall_singleton. by rewrite Hid.
  - rewrite fmap_app. apply NoDup_app. split_and!; [done| |].
    + intros x Hx. simpl. rewrite Hid. intros ->%list_elem_of_singleton.
      apply Hnew. apply Exists_exists.
      apply list_elem_of_fmap in Hx as (d & Hd & Hin). by exists d.
    + simpl. apply NoDup_singleton.
Qed.

End PrimaryKey.

(** ** Writes: [findOneAndUpdate] and [findOneAndDelete] *)

Section Writes.

Implicit Types (filterQuery : QueryFilter) (update : UpdateQuery) (w : World).

(** The cast of an update names no path that the update does not name. *)
Lemma cast_update_names fields cast path :
  Model.cast_update fields = Ok cast →
  fields !! path = None → cast !! path = None.
Proof.
  unfold Model.cast_update. case_decide; [|done]. intros [= <-] Hnone.
  by rewrite map_lookup_imap, Hnone.
Qed.

(** The two ways of writing a [$set] are one update. *)
Lemma bare_fields_are_set filterQuery fields w :
  AbstractRepository.findOneAndUpdate filterQuery (UpdateFields fields) w
  = AbstractRepository.findOneAndUpdate filterQuery (UpdateSet fields) w.
Proof. reflexivity. Qed.

Lemma findOneAndUpdate_missing filterQuery cast update fields w :
  Model.cast_filter filterQuery = Ok cast →
  Model.cast_update (set_of update) = Ok fields →
  list_find (Model.matches filterQuery) (collection w) = None →
  AbstractRepository.findOneAndUpdate filterQuery update w =
    (Throw (NotFoundException "Document not found"),
     with_logged (logged w ++
       [{| log_message := "Document was not found with filterQuery: ";
           log_filter := filterQuery |}]) w).
Proof.
  intros Hcast Hfields Hfind.
  unfold AbstractRepository.findOneAndUpdate, Model.findOneAndUpdate.
  run_monad. by rewrite Hcast, Hfields, Hfind.
Qed.

Lemma findOneAndUpdate_updated filterQuery update fields w i doc doc' :
  Model.cast_update (set_of update) = Ok fields →
  list_find (Model.matches filterQuery) (collection w) = Some (i, doc) →
  Model.apply_set fields doc = Ok doc' →
  AbstractRepository.findOneAndUpdate filterQuery update w =
    (Ok doc', with_collection (<[i := doc']> (collection w)) w).
Proof.
  intros Hfields Hfind Hset.
  pose proof Hfind as (_ & [cast Hcast]%matches_castable & _)%list_find_Some.
  unfold AbstractRepository.findOneAndUpdate, Model.findOneAndUpdate.
  run_monad. by rewrite Hcast, Hfields, Hfind, Hset.
Qed.

(** An update that cannot be cast, or that the store refuses, throws and
    leaves the world as it was. *)
Lemma findOneAndUpdate_uncastable filterQuery update w e :
  Model.cast_update (set_of update) = Throw e →
  ∃ e', AbstractRepository.findOneAndUpdate filterQuery update w = (Throw e', w).
Proof.
  intros Hfields.
  unfold AbstractRepository.findOneAndUpdate, Model.findOneAndUpdate.
  run_monad. rewrite Hfields.
  destruct (Model.cast_filter filterQuery); eauto.
Qed.

Lemma findOneAndUpdate_Ok filterQuery update w doc' w' :
  AbstractRepository.findOneAndUpdate filterQuery update w = (Ok doc', w') →
  ∃ i doc fields,
    Model.cast_update (set_of update) = Ok fields
    ∧ list_find (Model.matches filterQuery) (collection w) = Some (i, doc)
    ∧ Model.apply_set fields doc = Ok doc'
    ∧ w' = with_collection (<[i := doc']> (collection w)) w.
Proof.
  unfold AbstractRepository.findOneAndUpdate, Model.findOneAndUpdate.
  run_monad.
  destruct (Model.cast_filter filterQuery) as [cast|e]; [|done].
  destruct (Model.cast_update (set_of update)) as [fields|e]; [|done].
  destruct (list_find _ _) as [[i doc]|] eqn:Hfind; [|done].
  destruct (Model.apply_set fields doc) as [d|e] eqn:Hset; [|done].
  intros [= <- <-]. eauto 10.
Qed.

(** A call of [findOneAndUpdate] that throws leaves the collection as it
    was. *)
Lemma findOneAndUpdate_Throw filterQuery update w e :
  fst (AbstractRepository.findOneAndUpdate filterQuery update w) = Throw e →
  collection (snd (AbstractRepository.findOneAndUpdate filterQuery update w))
  = collection w
  ∧ issued (snd (AbstractRepository.findOneAndUpdate filterQuery update w))
    = issued w.
Proof.
  unfold AbstractRepository.findOneAndUpdate, Model.findOneAndUpdate.
  run_monad.
  destruct (Model.cast_filter filterQuery) as [cast|?]; [|done].
  destruct (Model.cast_update (set_of update)) as [fields|?]; [|done].
  destruct (list_find _ _) as [[i doc]|]; [|done].
  by destruct (Model.apply_set fields doc).
Qed.

Lemma findOneAndDelete_missing filterQuery cast w :
  Model.cast_filter filterQuery = Ok cast →
  list_find (Model.matches filterQuery) (collection w) = None →
  AbstractRepository.findOneAndDelete filterQuery w =
    (Throw (NotFoundException "Document not found"),
     with_logged (logged w ++
       [{| log_message := "Document was not found with filterQuery: ";
           log_filter := filterQuery |}]) w).
Proof.
  intros Hcast Hfind.
  unfold AbstractRepository.findOneAndDelete, Model.findOneAndDelete.
  run_monad. by rewrite Hcast, Hfind.
Qed.

Lemma findOneAndDelete_deleted filterQuery w i doc :
  list_find (Model.matches filterQuery) (collection w) = Some (i, doc) →
  AbstractRepository.findOneAndDelete filterQuery w =
    (Ok doc, with_collection (delete i (collection w)) w).
Proof.
  intros Hfind.
  pose proof Hfind as (_ & [cast Hcast]%matches_castable & _)%list_find_Some.
  unfold AbstractRepository.findOneAndDelete, Model.findOneAndDelete.
  run_monad. by rewrite Hcast, Hfind.
Qed.

Lemma findOneAndDelete_Ok filterQuery w doc w' :
  AbstractRepository.findOneAndDelete filterQuery w = (Ok doc, w') →
  ∃ i, list_find (Model.matches filterQuery) (collection w) = Some (i, doc)
       ∧ w' = with_collection (delete i (collection w)) w.
Proof.
  unfold AbstractRepository.findOneAndDelete, Model.findOneAndDelete.
  run_monad.
  destruct (Model.cast_filter filterQuery) as [cast|e]; [|done].
  destruct (list_find _ _) as [[i d]|] eqn:Hfind; [|done].
  intros [= <- <-]. eauto.
Qed.

(** C2, as amended.  For a filter and an update (of fields, bare or under
    [$set]) that can be cast to the schema: [findOneAndUpdate] throws
    [NotFoundException] when no document matches; it returns whenever one
    matches and the update leaves [_id] alone; and what it returns is the
    matched document after the update (the cast fields of the update laid
    over it), which is also what is stored and what an immediate [findOne]
    on its [_id] returns. *)
Theorem findOneAndUpdate_returns_post_update filterQuery cast update fields w :
  wf_collection (collection w) →
  Model.cast_filter filterQuery = Ok cast →
  Model.cast_update (set_of update) = Ok fields →
  (Forall (λ doc, ¬ Model.matches filterQuery doc) (collection w) →
     ∃ w', AbstractRepository.findOneAndUpdate filterQuery update w =
             (Throw (NotFoundException "Document not found"), w')
           ∧ collection w' = collection w)
  ∧ (∀ i doc,
       list_find (Model.matches filterQuery) (collection w) = Some (i, doc) →
       fields !! "_id" = None ∨ fields !! "_id" = doc !! "_id" →
       ∃ w', AbstractRepository.findOneAndUpdate filterQuery update w =
               (Ok (fields ∪ doc), w'))
  ∧ (∀ doc' w',
       AbstractRepository.findOneAndUpdate filterQuery update w = (Ok doc', w') →
       ∃ i doc,
         list_find (Model.matches filterQuery) (collection w) = Some (i, doc)
         ∧ doc' = fields ∪ doc
         ∧ fields ⊆ doc'
         ∧ collection w' !! i = Some doc'
         ∧ ∀ o, doc_id doc' = Some (VObjectId o) →
                AbstractRepository.findOne {["_id" := VObjectId o]} w'
                = (Ok doc', w')).
Proof.
  intros Hwf Hcast Hfields. split_and!.
  - intros Hnone. apply (proj2 (list_find_None _ _)) in Hnone.
    rewrite (findOneAndUpdate_missing _ _ _ _ _ Hcast Hfields Hnone). eauto.
  - intros i doc Hfind Hid.
    pose proof Hfind as (Hi & _)%list_find_Some.
    destruct Hwf as [Hall _].
    pose proof (Forall_lookup_1 _ _ _ _ Hall Hi) as Hsome.
    pose proof (apply_set_accepts _ _ Hid Hsome) as Hset.
    rewrite (findOneAndUpdate_updated _ _ _ _ _ _ _ Hfields Hfind Hset). eauto.
  - intros doc' w' (i & doc & fields' & Hfields' & Hfind & Hset & ->)%findOneAndUpdate_Ok.
    rewrite Hfields in Hfields'. injection Hfields' as <-.
    pose proof Hfind as (Hi & _)%list_find_Some.
    apply apply_set_Ok in Hset as [-> Hid].
    assert (<[i := fields ∪ doc]> (collection w) !! i = Some (fields ∪ doc)) as Hi'.
    { apply list_lookup_insert_eq. by eapply lookup_lt_Some. }
    exists i, doc. split_and!; try done.
    + apply map_union_subseteq_l.
    + intros o Ho. eapply findOne_found. simpl.
      eapply find_by_id; [|exact Hi'|exact Ho].
      by eapply wf_collection_insert.
Qed.

(** C3, as amended.  For a filter that can be cast to the schema:
    [findOneAndDelete] throws [NotFoundException] when no document matches;
    otherwise it returns the first matching document exactly as it was
    stored, removes it, and an immediate [findOne] on its [_id] throws
    [NotFoundException]. *)
Theorem findOneAndDelete_returns_pre_deletion filterQuery cast w :
  wf_collection (collection w) →
  Model.cast_filter filterQuery = Ok cast →
  (Forall (λ doc, ¬ Model.matches filterQuery doc) (collection w) →
     ∃ w', AbstractRepository.findOneAndDelete filterQuery w =
             (Throw (NotFoundException "Document not found"), w')
           ∧ collection w' = collection w)
  ∧ (∀ i doc,
       list_find (Model.matches filterQuery) (collection w) = Some (i, doc) →
       ∃ w',
         AbstractRepository.findOneAndDelete filterQuery w = (Ok doc, w')
         ∧ collection w !! i = Some doc
         ∧ collection w' = delete i (collection w)
         ∧ ∀ o, doc_id doc = Some (VObjectId o) →
             ∃ w'', AbstractRepository.findOne {["_id" := VObjectId o]} w' =
                      (Throw (NotFoundException "Document not found"), w'')).
Proof.
  intros Hwf Hcast. split.
  - intros Hnone. apply (proj2 (list_find_None _ _)) in Hnone.
    rewrite (findOneAndDelete_missing _ _ _ Hcast Hnone). eauto.
  - intros i doc Hfind.
    pose proof Hfind as (Hi & _)%list_find_Some.
    rewrite (findOneAndDelete_deleted _ _ _ _ Hfind).
    eexists. split_and!; try done.
    intros o Ho. eexists.
    apply (findOne_missing _ _ _ (cast_filter_id o)). simpl.
    apply list_find_None. by eapply delete_removes_id.
Qed.

End Writes.

(** ** The update path leaves the rest of the document alone *)

Section Frame.

Variable bcrypt_hash : string → N → string.

Lemma findOneAndUpdate_frame filterQuery update w doc' w' :
  AbstractRepository.findOneAndUpdate filterQuery update w = (Ok doc', w') →
  partial_replacement (set_of update) w doc' w'.
Proof.
  intros (i & doc & fields & Hfields & Hfind & Hset & ->)%findOneAndUpdate_Ok.
  apply list_find_Some in Hfind as (Hi & _).
  apply apply_set_Ok in Hset as [-> Hid].
  exists i, doc. split_and!; try done.
  - intros k Hk. apply lookup_union_r. by eapply cast_update_names.
  - rewrite dom_union_L. apply union_least; [|apply union_subseteq_l].
    etrans; [|apply union_subseteq_r].
    intros k. rewrite !elem_of_dom, <- !not_eq_None_Some.
    intros Hk Hnone. apply Hk. by eapply cast_update_names.
Qed.

(** The object under [$set] names the fields of the input, no other. *)
Lemma update_set_names updateUserInput w :
  ∃ fields, UsersService.update_set bcrypt_hash updateUserInput w = (Ok fields, w)
    ∧ ∀ k, fields !! k = None ↔ updateUserInput !! k = None.
Proof.
  unfold UsersService.update_set.
  destruct (truthy (updateUserInput !! "password")) eqn:Htruthy.
  - unfold promise, UsersService.hashPassword, UsersService.bcrypt_hash_async.
    run_monad.
    destruct (updateUserInput !! "password") as [v|] eqn:Hpw; [|done].
    assert (∀ x k, <["password" := x]> updateUserInput !! k = None
                   ↔ updateUserInput !! k = None) as Hnames.
    { intros x k. destruct (decide (k = "password")) as [->|Hne].
      - rewrite lookup_insert_eq, Hpw. done.
      - by rewrite lookup_insert_ne. }
    destruct v; simpl; eauto.
  - run_monad. eauto.
Qed.

(** With a non-empty password in the input, what goes under [password]
    in the [$set] is the promise of the digest: [update] calls
    [hashPassword] without [await]. *)
Remark update_set_password_not_awaited updateUserInput plaintext w :
  updateUserInput !! "password" = Some (VString plaintext) →
  plaintext ≠ EmptyString →
  UsersService.update_set bcrypt_hash updateUserInput w =
    (Ok (<["password" := VPromise (VString (bcrypt_hash plaintext 10))]>
           updateUserInput), w).
Proof.
  intros Hpw Hne. unfold UsersService.update_set. rewrite Hpw. simpl.
  destruct (String.eqb_spec plaintext EmptyString); [done|]. reflexivity.
Qed.

(** C5. Every successful update, through [findOneAndUpdate] or through
    [UsersService.update], replaces one stored document in place by a
    document that keeps [_id] and every field the update does not name,
    and has no field beyond the old ones and those the caller named; no
    other document changes. *)
Theorem update_is_partial_field_replacement :
  (∀ filterQuery update w doc' w',
     AbstractRepository.findOneAndUpdate filterQuery update w = (Ok doc', w') →
     partial_replacement (set_of update) w doc' w')
  ∧ (∀ _id updateUserInput w doc' w',
       UsersService.update bcrypt_hash _id updateUserInput w = (Ok doc', w') →
       partial_replacement updateUserInput w doc' w').
Proof.
  split; [apply findOneAndUpdate_frame|].
  intros _id input w doc' w'. unfold UsersService.update.
  destruct (update_set_names input w) as (fields & Hrun & Hnames).
  unfold bind at 1. rewrite Hrun. unfold bind at 1.
  destruct (AbstractRepository.findOneAndUpdate _ _ w) as [[d|e] w1] eqn:Hupd;
    [|done].
  unfold ret. intros [= <- <-].
  apply findOneAndUpdate_frame in Hupd as (i & doc & Hi & Hc & Hid & Hkeep & Hdom).
  exists i, doc. split_and!; try done.
  - intros k Hk. apply Hkeep. simpl. by apply Hnames.
  - etrans; [exact Hdom|]. simpl.
    assert (dom fields = dom input) as ->; [|done].
    apply set_eq. intros k. rewrite !elem_of_dom, <- !not_eq_None_Some.
    by rewrite Hnames.
Qed.

End Frame.

(** ** [create] and the history of identifiers *)

Section Create.

Variable ObjectId_generate : list ObjectId → ObjectId.


(** [create], run: one identifier is drawn, then the insert decides. *)
Lemma create_run document w :
  let o := ObjectId_generate (issued w) in
  let doc := <["_id" := VObjectId o]> document in
  AbstractRepository.create ObjectId_generate document w =
    if decide (Exists (λ d, d !! "_id" = Some (VObjectId o)) (collection w))
    then (Throw DuplicateKeyError, with_issued (o :: issued w) w)
    else (Ok doc, with_collection (collection w ++ [doc])
                    (with_issued (o :: issued w) w)).
Proof.
  unfold AbstractRepository.create, AbstractRepository.new_ObjectId, Model.save.
  run_monad. rewrite lookup_insert_eq. by case_decide.
Qed.

Lemma create_Ok document w doc w' :
  AbstractRepository.create ObjectId_generate document w = (Ok doc, w') →
  doc = <["_id" := VObjectId (ObjectId_generate (issued w))]> document
  ∧ issued w' = ObjectId_generate (issued w) :: issued w
  ∧ collection w' = collection w ++ [doc].
Proof. rewrite create_run. simpl. case_decide; [done|]. by intros [= <- <-]. Qed.

(** What a call of [findOne] or [findOneAndDelete] leaves of the world. *)
Lemma findOne_world filterQuery w :
  collection (snd (AbstractRepository.findOne filterQuery w)) = collection w
  ∧ issued (snd (AbstractRepository.findOne filterQuery w)) = issued w.
Proof.
  unfold AbstractRepository.findOne, Model.findOne. run_monad.
  destruct (Model.cast_filter filterQuery); [|done].
  by destruct (list_find _ _).
Qed.

Lemma find_world filterQuery w :
  snd (AbstractRepository.find filterQuery w) = w.
Proof.
  unfold AbstractRepository.find, Model.find.
  by destruct (Model.cast_filter filterQuery).
Qed.

Lemma findOneAndDelete_world filterQuery w :
  (collection (snd (AbstractRepository.findOneAndDelete filterQuery w))
   = collection w
   ∨ ∃ i, collection (snd (AbstractRepository.findOneAndDelete filterQuery w))
          = delete i (collection w))
  ∧ issued (snd (AbstractRepository.findOneAndDelete filterQuery w)) = issued w.
Proof.
  unfold AbstractRepository.findOneAndDelete, Model.findOneAndDelete. run_monad.
  destruct (Model.cast_filter filterQuery); [|by split; [left|]].
  destruct (list_find _ _) as [[i d]|]; simpl; [|by split; [left|]].
  split; [right|]; eauto.
Qed.

Lemma findOneAndUpdate_issued filterQuery update w :
  issued (snd (AbstractRepository.findOneAndUpdate filterQuery update w))
  = issued w.
Proof.
  destruct (AbstractRepository.findOneAndUpdate filterQuery update w)
    as [[doc'|e] w'] eqn:Hrun.
  - by apply findOneAndUpdate_Ok in Hrun as (i & doc & fields & _ & _ & _ & ->).
  - pose proof (findOneAndUpdate_Throw filterQuery update w e) as Hthrow.
    rewrite Hrun in Hthrow. by apply Hthrow.
Qed.

(** No event forgets an identifier. *)
Lemma issued_after e w : issued w ⊆ issued (after ObjectId_generate e w).
Proof.
  destruct e as [d|f|f u|f|f|t]; simpl; try done.
  - rewrite create_run. simpl. case_decide; simpl; apply list_subseteq_cons;
      done.
  - by rewrite (proj2 (findOne_world f w)).
  - by rewrite findOneAndUpdate_issued.
  - by rewrite find_world.
  - by rewrite (proj2 (findOneAndDelete_world f w)).
Qed.

Lemma issued_later w w' : later ObjectId_generate w w' → issued w ⊆ issued w'.
Proof.
  induction 1 as [w|w w1 w2 [e ->] _ IH]; [done|].
  etrans; [apply issued_after|exact IH].
Qed.

(** Every identifier that a history stores is an [ObjectId]: [create]
    stores the one it drew, and no update changes an [_id]. *)
Lemma ObjectIds_after e w :
  Forall (λ doc, ∃ o, doc_id doc = Some (VObjectId o)) (collection w) →
  Forall (λ doc, ∃ o, doc_id doc = Some (VObjectId o))
    (collection (after ObjectId_generate e w)).
Proof.
  intros Hall. destruct e as [d|f|f u|f|f|t]; simpl; try done.
  - rewrite create_run. simpl. case_decide; simpl; [done|].
    apply Forall_app. split; [done|]. apply Forall_singleton.
    eexists. apply lookup_insert_eq.
  - by rewrite (proj1 (findOne_world f w)).
  - destruct (AbstractRepository.findOneAndUpdate f u w) as [[doc'|e] w'] eqn:Hrun.
    + pose proof Hrun as (i & doc & fields & _ & Hfind & Hset & ->)%findOneAndUpdate_Ok.
      apply list_find_Some in Hfind as (Hi & _).
      apply apply_set_Ok in Hset as [_ Hid]. simpl.
      apply Forall_insert; [done|]. rewrite Hid.
      by eapply (Forall_lookup_1 _ _ _ _ Hall).
    + pose proof (findOneAndUpdate_Throw f u w e) as Hthrow.
      rewrite Hrun in Hthrow. simpl in *. by rewrite (proj1 (Hthrow eq_refl)).
  - by rewrite find_world.
  - destruct (findOneAndDelete_world f w) as [[->|[i ->]] _]; [done|].
    by apply Forall_delete.
Qed.

Lemma ObjectIds_later w w' :
  Forall (λ doc, ∃ o, doc_id doc = Some (VObjectId o)) (collection w) →
  later ObjectId_generate w w' →
  Forall (λ doc, ∃ o, doc_id doc = Some (VObjectId o)) (collection w').
Proof.
  intros Hall Hlater. induction Hlater as [w|w w1 w2 [e ->] _ IH]; [done|].
  apply IH. by apply ObjectIds_after.
Qed.

Hypothesis ObjectId_generate_fresh : ∀ l, ObjectId_generate l ∉ l.

(** In a well-formed world the insert of [create] cannot collide. *)
Lemma fresh_not_stored w :
  wf w →
  ¬ Exists (λ d, d !! "_id" = Some (VObjectId (ObjectId_generate (issued w))))
      (collection w).
Proof.
  intros [_ Hissued] (d & Hd & Hid)%Exists_exists.
  apply (ObjectId_generate_fresh (issued w)).
  rewrite Forall_forall in Hissued. by eapply Hissued.
Qed.

Lemma create_in_wf_world fields w :
  wf w →
  let o := ObjectId_generate (issued w) in
  let doc := <["_id" := VObjectId o]> fields in
  AbstractRepository.create ObjectId_generate fields w =
    (Ok doc, with_collection (collection w ++ [doc])
               (with_issued (o :: issued w) w)).
Proof.
  intros Hwf. simpl. rewrite create_run. simpl.
  by rewrite decide_False by by apply fresh_not_stored.
Qed.

(** Well-formedness is an invariant of every history. *)
Lemma wf_after e w : wf w → wf (after ObjectId_generate e w).
Proof.
  intros Hwf. pose proof Hwf as [Hc Hissued].
  destruct e as [d|f|f u|f|f|t]; simpl; try done.
  - rewrite create_run. simpl. rewrite decide_False by by apply fresh_not_stored.
    simpl. split; simpl.
    + eapply wf_collection_snoc; [done| |by apply fresh_not_stored].
      unfold doc_id. apply lookup_insert_eq.
    + apply Forall_app. split.
      * eapply Forall_impl; [exact Hissued|]. simpl. intros doc Hdoc o Ho.
        apply list_elem_of_further. by apply Hdoc.
      * apply Forall_singleton. intros o. unfold doc_id.
        rewrite lookup_insert_eq. intros [= <-]. apply list_elem_of_here.
  - destruct (findOne_world f w) as [Hcollection Hissued'].
    unfold wf. by rewrite Hcollection, Hissued'.
  - destruct (AbstractRepository.findOneAndUpdate f u w) as [[doc'|e] w'] eqn:Hrun.
    + pose proof Hrun as (i & doc & fields & _ & Hfind & Hset & ->)%findOneAndUpdate_Ok.
      apply list_find_Some in Hfind as (Hi & _).
      apply apply_set_Ok in Hset as [_ Hid]. split; simpl.
      * by eapply wf_collection_insert.
      * apply Forall_insert; [done|]. rewrite Hid.
        by eapply (Forall_lookup_1 _ _ _ _ Hissued).
    + pose proof (findOneAndUpdate_Throw f u w e) as Hthrow.
      rewrite Hrun in Hthrow. simpl in *.
      destruct (Hthrow eq_refl) as [Hcollection Hissued'].
      unfold wf. by rewrite Hcollection, Hissued'.
  - by rewrite find_world.
  - destruct (findOneAndDelete_world f w) as [[Hcollection|[i Hcollection]] Hissued'];
      unfold wf; rewrite Hcollection, Hissued'; [done|]. split.
    + by apply wf_collection_delete.
    + by apply Forall_delete.
Qed.

Lemma wf_later w w' : wf w → later ObjectId_generate w w' → wf w'.
Proof.
  intros Hwf Hlater. induction Hlater as [w|w w1 w2 [e ->] _ IH]; [done|].
  apply IH. by apply wf_after.
Qed.

(** Every world that a history of repository calls reaches from an empty
    collection is well formed. *)
Lemma wf_empty w : collection w = [] → wf w.
Proof.
  intros Hempty. unfold wf, wf_collection. rewrite Hempty. simpl.
  split_and!; [apply Forall_nil_2|apply NoDup_nil_2|apply Forall_nil_2].
Qed.

Corollary wf_reachable w0 w :
  collection w0 = [] → later ObjectId_generate w0 w → wf w.
Proof. intros Hempty. apply wf_later. by apply wf_empty. Qed.

(** C1. In a well-formed world, [create] draws one identifier, stores the
    input with [_id] set to it at the end of the collection and returns
    that document.  Its fields other than [_id] are those of the input;
    the identifier was never issued before, is carried by no stored
    document and differs from the identifier of every entity that
    [create] returned earlier in the history; the document can be read
    back by its [_id] at once. *)
Theorem create_returns_fresh_entity fields w :
  wf w →
  ∃ o doc w',
    AbstractRepository.create ObjectId_generate fields w = (Ok doc, w')
    ∧ doc = <["_id" := VObjectId o]> fields
    ∧ collection w' = collection w ++ [doc]
    ∧ (∀ k, k ≠ "_id" → doc !! k = fields !! k)
    ∧ doc_id doc = Some (VObjectId o)
    ∧ (o ∉ issued w)
    ∧ Forall (λ d, doc_id d ≠ doc_id doc) (collection w)
    ∧ (∀ fields0 w0 doc0 w0',
         AbstractRepository.create ObjectId_generate fields0 w0 = (Ok doc0, w0') →
         later ObjectId_generate w0' w →
         doc_id doc0 ≠ doc_id doc)
    ∧ AbstractRepository.findOne {["_id" := VObjectId o]} w' = (Ok doc, w').
Proof.
  intros Hwf. pose proof (fresh_not_stored w Hwf) as Hnew.
  set (o := ObjectId_generate (issued w)) in *.
  pose proof (create_in_wf_world fields w Hwf) as Hrun. simpl in Hrun.
  fold o in Hrun.
  assert (doc_id (<["_id" := VObjectId o]> fields) = Some (VObjectId o)) as Hid
    by apply lookup_insert_eq.
  eexists o, _, _. split_and!; try done.
  - intros k Hk. by apply lookup_insert_ne.
  - apply ObjectId_generate_fresh.
  - apply Forall_forall. intros d Hd Heq. apply Hnew, Exists_exists.
    exists d. split; [done|]. by rewrite <- Hid, <- Heq.
  - intros fields0 w0 doc0 w0' (-> & Hissued & _)%create_Ok Hlater.
    rewrite Hid. unfold doc_id. rewrite lookup_insert_eq. intros [= Heq].
    apply (ObjectId_generate_fresh (issued w)). fold o. rewrite <- Heq.
    apply (issued_later _ _ Hlater). rewrite Hissued. apply list_elem_of_here.
  - eapply findOne_found. simpl. eapply find_by_id.
    + eapply wf_collection_snoc; [apply Hwf|exact Hid|exact Hnew].
    + rewrite lookup_app_r by done. by rewrite Nat.sub_diag.
    + exact Hid.
Qed.

End Create.
(** ** [UsersService.create] stores the digest *)

Section Users.

Variable ObjectId_generate : list ObjectId → ObjectId.
Variable bcrypt_hash : string → N → string.
Hypothesis ObjectId_generate_fresh : ∀ l, ObjectId_generate l ∉ l.

(** The service hands the repository its input with [password] replaced
    by the digest at cost 10. *)
Lemma create_hashes_then_delegates createUserInput plaintext w :
  createUserInput !! "password" = Some (VString plaintext) →
  UsersService.create ObjectId_generate bcrypt_hash createUserInput w =
    AbstractRepository.create ObjectId_generate
      (<["password" := VString (bcrypt_hash plaintext 10)]> createUserInput) w.
Proof.
  intros Hpw. unfold UsersService.create, UsersService.hashPassword,
    UsersService.bcrypt_hash_async. rewrite Hpw. reflexivity.
Qed.

(** C9. For an input whose password is the string [plaintext], in a
    well-formed world, [UsersService.create] calls the repository with the
    input in which [password] is [bcrypt_hash plaintext 10]; the document
    it persists and returns has that digest as password (so not the
    plaintext, a digest being different from its input) and every other
    field of the input unchanged. *)
Theorem create_stores_password_digest createUserInput plaintext w :
  wf w →
  createUserInput !! "password" = Some (VString plaintext) →
  bcrypt_hash plaintext 10 ≠ plaintext →
  UsersService.create ObjectId_generate bcrypt_hash createUserInput w =
    AbstractRepository.create ObjectId_generate
      (<["password" := VString (bcrypt_hash plaintext 10)]> createUserInput) w
  ∧ ∃ doc w',
      UsersService.create ObjectId_generate bcrypt_hash createUserInput w
        = (Ok doc, w')
      ∧ collection w' = collection w ++ [doc]
      ∧ doc !! "password" = Some (VString (bcrypt_hash plaintext 10))
      ∧ doc !! "password" ≠ Some (VString plaintext)
      ∧ (∀ k, k ≠ "password" → k ≠ "_id" → doc !! k = createUserInput !! k).
Proof.
  intros Hwf Hpw Hdigest.
  rewrite (create_hashes_then_delegates _ _ _ Hpw). split; [done|].
  pose proof (create_in_wf_world ObjectId_generate ObjectId_generate_fresh
                (<["password" := VString (bcrypt_hash plaintext 10)]> createUserInput)
                w Hwf) as Hrun.
  simpl in Hrun. set (o := ObjectId_generate (issued w)) in *.
  assert ((<["_id" := VObjectId o]>
             (<["password" := VString (bcrypt_hash plaintext 10)]> createUserInput)
           : Document) !! "password"
          = Some (VString (bcrypt_hash plaintext 10))) as Hstored.
  { rewrite lookup_insert_ne by done. apply lookup_insert_eq. }
  eexists _, _. split_and!; [exact Hrun|done|exact Hstored| |].
  - rewrite Hstored. congruence.
  - intros k Hk Hk'. by rewrite !lookup_insert_ne.
Qed.

End Users.

(** ** Dates *)

Section Dates.

Variable LocalTZA : Z → bool → Z.

(** The fields of a time, put back together with [n] more seconds, are
    that time [n] seconds later. *)
Lemma MakeDate_add_seconds t n :
  JSDate.MakeDate (JSDate.Day t)
    (JSDate.MakeTime (JSDate.HourFromTime t) (JSDate.MinFromTime t)
       (JSDate.SecFromTime t + n) (JSDate.msFromTime t))
  = t + n * 1000.
Proof.
  unfold JSDate.MakeDate, JSDate.MakeTime, JSDate.Day, JSDate.HourFromTime,
    JSDate.MinFromTime, JSDate.SecFromTime, JSDate.msFromTime,
    JSDate.msPerDay, JSDate.msPerHour, JSDate.msPerMinute, JSDate.msPerSecond.
  replace (t / 60000) with (t / 1000 / 60) by (rewrite Zdiv_Zdiv; [done|lia..]).
  replace (t / 3600000) with (t / 1000 / 60 / 60)
    by (rewrite !Zdiv_Zdiv; [done|lia..]).
  replace (t / 86400000) with (t / 1000 / 60 / 60 / 24)
    by (rewrite !Zdiv_Zdiv; [done|lia..]).
  pose proof (Z.div_mod t 1000).
  pose proof (Z.div_mod (t / 1000) 60).
  pose proof (Z.div_mod (t / 1000 / 60) 60).
  pose proof (Z.div_mod (t / 1000 / 60 / 60) 24).
  lia.
Qed.

(** [d.setSeconds(d.getSeconds() + n)] on a valid date. *)
Lemma setSeconds_getSeconds_add t n :
  JSDate.setSeconds LocalTZA (Some t)
    (s ← JSDate.getSeconds LocalTZA (Some t); Some (s + n))
  = JSDate.TimeClip (JSDate.UTC LocalTZA (JSDate.LocalTime LocalTZA t + n * 1000)).
Proof.
  unfold JSDate.setSeconds, JSDate.getSeconds. simpl.
  by rewrite MakeDate_add_seconds.
Qed.

(** Where the zone offset is the same at both ends and the result is a
    representable date, that is exactly [n] seconds later. *)
Lemma setSeconds_exact t n :
  LocalTZA (t + LocalTZA t true + n * 1000) false = LocalTZA t true →
  Z.abs (t + n * 1000) ≤ 8640000000000000 →
  JSDate.setSeconds LocalTZA (Some t)
    (s ← JSDate.getSeconds LocalTZA (Some t); Some (s + n))
  = Some (t + n * 1000).
Proof.
  intros Hzone Hrange. rewrite setSeconds_getSeconds_add.
  unfold JSDate.UTC, JSDate.LocalTime. rewrite Hzone.
  replace (t + LocalTZA t true + n * 1000 - LocalTZA t true)
    with (t + n * 1000) by lia.
  unfold JSDate.TimeClip.
  destruct (Z.ltb_spec 8640000000000000 (Z.abs (t + n * 1000))); [lia|done].
Qed.

End Dates.


(** ** [login] and [logout] *)

#[local] Arguments JSDate.setSeconds : simpl never.
#[local] Arguments JSDate.getSeconds : simpl never.

Section Auth.

Variable LocalTZA : Z → bool → Z.
Variable hmac : Json → Z → Z → N.

Implicit Types (user : User) (response : Response) (w : World).

(** The payload [login] hands to [sign], which is also the [user] member
    of the body it returns. *)
Local Abbreviation identity user :=
  (JObject [("_id", JString (toHexString (_id user)));
            ("email", JString (email user))]).

(** The expiry [login] computes: the invocation time read on the local
    clock, [n] seconds added there, and the result read back as a time. *)
Local Abbreviation local_expiry w n :=
  (JSDate.UTC LocalTZA (JSDate.LocalTime LocalTZA (clock w) + n * 1000)).

(** [login], run in a world whose configuration has the expiration: the
    date it computes decides between the cookie and a [TypeError]. *)
Lemma login_steps user response w n :
  config w !! "JWT_EXPIRATION" = Some n →
  AuthService.login LocalTZA hmac user response w =
    match JSDate.TimeClip (local_expiry w n) with
    | None => (Throw TypeError, w)
    | Some expiry =>
        (Ok (JObject [("success", JBoolean true); ("user", identity user)],
             {| cookies := cookies response ++
                  [{| cookie_name := "Authentication";
                      cookie_value :=
                        TokenValue
                          {| JwtService.payload := identity user;
                             JwtService.issuedAt := clock w;
                             JwtService.expiresAt := clock w + n * 1000;
                             JwtService.signature :=
                               hmac (identity user) (clock w)
                                 (clock w + n * 1000) |};
                      httpOnly := true;
                      expires := Some expiry |}] |}),
         w)
    end.
Proof.
  intros Hn. unfold AuthService.login, JSDate.now, getOrThrow, JwtService.sign,
    response_cookie.
  run_monad. rewrite Hn. simpl. rewrite Hn. simpl.
  pose proof (setSeconds_getSeconds_add LocalTZA (clock w) n) as Hadd.
  unfold JSDate.getSeconds in Hadd. simpl in Hadd. rewrite Hadd.
  by destruct (JSDate.TimeClip _).
Qed.

Lemma login_run user response w n :
  config w !! "JWT_EXPIRATION" = Some n →
  Z.abs (local_expiry w n) ≤ 8640000000000000 →
  AuthService.login LocalTZA hmac user response w =
    (Ok (JObject [("success", JBoolean true); ("user", identity user)],
         {| cookies := cookies response ++
              [{| cookie_name := "Authentication";
                  cookie_value :=
                    TokenValue
                      {| JwtService.payload := identity user;
                         JwtService.issuedAt := clock w;
                         JwtService.expiresAt := clock w + n * 1000;
                         JwtService.signature :=
                           hmac (identity user) (clock w) (clock w + n * 1000) |};
                  httpOnly := true;
                  expires := Some (local_expiry w n) |}] |}),
     w).
Proof.
  intros Hn Hrange. rewrite (login_steps _ _ _ _ Hn). unfold JSDate.TimeClip.
  destruct (Z.ltb_spec 8640000000000000 (Z.abs (local_expiry w n))); [lia|done].
Qed.

(** An expiry beyond the range of dates is an invalid date, which
    [response.cookie] refuses: [login] throws and sets no cookie. *)
Lemma login_invalid_expiry user response w n :
  config w !! "JWT_EXPIRATION" = Some n →
  8640000000000000 < Z.abs (local_expiry w n) →
  AuthService.login LocalTZA hmac user response w = (Throw TypeError, w).
Proof.
  intros Hn Hrange. rewrite (login_steps _ _ _ _ Hn). unfold JSDate.TimeClip.
  destruct (Z.ltb_spec 8640000000000000 (Z.abs (local_expiry w n))); [done|lia].
Qed.

(** Without the expiration in the configuration, [login] throws before it
    touches the response. *)
Lemma login_unconfigured user response w :
  config w !! "JWT_EXPIRATION" = None →
  AuthService.login LocalTZA hmac user response w =
    (Throw (ConfigError "JWT_EXPIRATION"), w).
Proof.
  intros Hn. unfold AuthService.login, JSDate.now, getOrThrow.
  run_monad. by rewrite Hn.
Qed.

(** Where the zone offset of the host is the same at the invocation time
    and at the expiry (always so on a host without clock changes), and the
    expiry is a representable date, [login] signs the payload with exactly
    the members [_id] (the 24 hexadecimal digits of the user's identifier)
    and [email], and adds to the response the cookie [Authentication]
    carrying that token, with [httpOnly] set and [expires] equal to the
    invocation time plus [n] seconds. *)
Lemma login_sets_authentication_cookie user response w n :
  config w !! "JWT_EXPIRATION" = Some n →
  LocalTZA (clock w + LocalTZA (clock w) true + n * 1000) false
    = LocalTZA (clock w) true →
  Z.abs (clock w + n * 1000) ≤ 8640000000000000 →
  ∃ token body,
    AuthService.login LocalTZA hmac user response w =
      (Ok (body,
           {| cookies := cookies response ++
                [{| cookie_name := "Authentication";
                    cookie_value := TokenValue token;
                    httpOnly := true;
                    expires := Some (clock w + n * 1000) |}] |}),
       w)
    ∧ JwtService.sign hmac (identity user) w = (Ok token, w)
    ∧ JwtService.payload token =
        JObject [("_id", JString (toHexString (_id user)));
                 ("email", JString (email user))]
    ∧ String.length (toHexString (_id user)) = 24%nat
    ∧ all_chars is_lower_hex (toHexString (_id user)) = true.
Proof.
  intros Hn Hzone Hrange.
  assert (local_expiry w n = clock w + n * 1000) as Hexpiry.
  { unfold JSDate.UTC, JSDate.LocalTime. rewrite Hzone. lia. }
  rewrite (login_run _ _ _ _ Hn) by (rewrite Hexpiry; done).
  rewrite Hexpiry.
  eexists _, _. split_and!; [reflexivity| |reflexivity|..].
  - unfold JwtService.sign. by rewrite Hn.
  - apply toHexString_shape.
  - apply toHexString_shape.
Qed.


(** C8. [logout] adds to the response the cookie [Authentication] with the
    empty string as value, [httpOnly] set and an expiry that is not after
    the invocation time; it returns in every world and leaves the world,
    the collection with it, as it was. *)
Theorem logout_clears_cookie response w :
  ∃ t,
    AuthService.logout response w =
      (Ok {| cookies := cookies response ++
               [{| cookie_name := "Authentication";
                   cookie_value := TextValue EmptyString;
                   httpOnly := true;
                   expires := Some t |}] |}, w)
    ∧ t ≤ clock w
    ∧ collection (snd (AuthService.logout response w)) = collection w.
Proof. exists (clock w). split_and!; [reflexivity|lia|reflexivity]. Qed.

(** C10. Two users with the same [_id] and [email] get the same outcome
    from [login] in the same world (body, cookies and all), whatever
    their passwords; and a body that [login] returns is
    [{success: true, user: {_id, email}}], in which no member at any
    depth is named [password]. *)
Theorem login_body_hides_password user1 user2 response w :
  _id user1 = _id user2 →
  email user1 = email user2 →
  AuthService.login LocalTZA hmac user1 response w
    = AuthService.login LocalTZA hmac user2 response w
  ∧ (∀ body response' w',
       AuthService.login LocalTZA hmac user1 response w
         = (Ok (body, response'), w') →
       body = JObject [("success", JBoolean true);
                       ("user", JObject [("_id", JString (toHexString (_id user1)));
                                         ("email", JString (email user1))])]
       ∧ "password" ∉ member_names body).
Proof.
  intros Hid Hemail. split.
  - unfold AuthService.login. by rewrite Hid, Hemail.
  - intros body response' w'.
    destruct (config w !! "JWT_EXPIRATION") as [n|] eqn:Hn.
    + rewrite (login_steps _ _ _ _ Hn).
      destruct (JSDate.TimeClip _); [|done].
      intros [= <- _ _]. split; [done|].
      simpl. rewrite !elem_of_cons. intros [?|[?|[?|[?|?%elem_of_nil]]]]; done.
    + by rewrite (login_unconfigured _ _ _ Hn).
Qed.

End Auth.

(** ** The theorems at work on the sample worlds *)

Lemma next_ObjectId_bound (l : list ObjectId) o :
  o ∈ l → (o ≤ foldr N.max 0 l)%N.
Proof.
  induction 1 as [o l|o o' l _ IH]; simpl; [lia|].
  etrans; [exact IH|lia].
Qed.

Lemma next_ObjectId_fresh (l : list ObjectId) : Sample.next_ObjectId l ∉ l.
Proof.
  intros Hin%next_ObjectId_bound. unfold Sample.next_ObjectId in Hin. lia.
Qed.

Lemma digest_not_identity data saltRounds :
  Sample.digest data saltRounds ≠ data.
Proof.
  intros Heq. apply (f_equal String.length) in Heq.
  unfold Sample.digest in Heq. rewrite length_append in Heq. simpl in Heq. lia.
Qed.

Lemma two_users_wf_collection : wf_collection (collection Sample.two_users).
Proof. apply (bool_decide_unpack _). vm_compute. exact I. Qed.

Lemma two_users_wf : wf Sample.two_users.
Proof.
  split; [apply two_users_wf_collection|].
  simpl. repeat apply Forall_cons_2; [| |apply Forall_nil_2].
  - intros o. vm_compute. intros [= <-]. apply list_elem_of_here.
  - intros o. vm_compute. intros [=].
Qed.

Lemma members_wf_collection : wf_collection (collection Sample.members).
Proof. apply (bool_decide_unpack _). vm_compute. exact I. Qed.

Lemma members_wf : wf Sample.members.
Proof.
  split; [apply members_wf_collection|].
  simpl. repeat apply Forall_cons_2; [| |apply Forall_nil_2].
  - intros o. vm_compute. intros [= <-]. apply list_elem_of_further,
      list_elem_of_here.
  - intros o. vm_compute. intros [= <-]. apply list_elem_of_here.
Qed.

(** The string a client sends for Alice is cast to her identifier. *)
Lemma alice_id_cast :
  Model.cast_filter {["_id" := VString Sample.alice_id]}
  = Ok {["_id" := VObjectId 1%N]}.
Proof. vm_compute. reflexivity. Qed.

Lemma alice_is_first_by_id :
  list_find (Model.matches {["_id" := VString Sample.alice_id]})
    (collection Sample.members) = Some (0%nat, Sample.alice).
Proof. vm_compute. reflexivity. Qed.

(** [create] in the world of the two users. *)
Lemma create_returns_fresh_entity_witness :
  wf Sample.two_users
  ∧ ∃ doc w',
      AbstractRepository.create Sample.next_ObjectId Sample.dave Sample.two_users
        = (Ok doc, w')
      ∧ doc_id doc = Some (VObjectId 2%N)
      ∧ collection w' = [Sample.alice; Sample.bob; doc].
Proof.
  split; [apply two_users_wf|].
  destruct (create_returns_fresh_entity Sample.next_ObjectId
              next_ObjectId_fresh Sample.dave Sample.two_users two_users_wf)
    as (o & doc & w' & Hrun & Hdoc & Hcollection & _).
  exists doc, w'. split_and!; [exact Hrun| |exact Hcollection].
  apply create_Ok in Hrun as (-> & _). apply lookup_insert_eq.
Defined.

(** Alice moves to another address: the client names her by the
    hexadecimal string of her identifier and gives the new address bare. *)
Lemma findOneAndUpdate_returns_post_update_witness :
  wf_collection (collection Sample.members)
  ∧ Model.cast_filter {["_id" := VString Sample.alice_id]}
    = Ok {["_id" := VObjectId 1%N]}
  ∧ Model.cast_update (set_of Sample.move_alice_bare) = Ok Sample.new_address
  ∧ ∃ doc' w',
      AbstractRepository.findOneAndUpdate
        {["_id" := VString Sample.alice_id]} Sample.move_alice_bare
        Sample.members = (Ok doc', w')
      ∧ doc' = <["email" := VString "alice@example.org"]> Sample.alice
      ∧ collection w' = [doc'; Sample.erin]
      ∧ AbstractRepository.findOne {["_id" := VObjectId 1%N]} w' = (Ok doc', w').
Proof.
  assert (Model.cast_update (set_of Sample.move_alice_bare)
          = Ok Sample.new_address) as Hfields by (vm_compute; reflexivity).
  split_and!; [apply members_wf_collection|exact alice_id_cast|exact Hfields|].
  destruct (findOneAndUpdate_returns_post_update
              {["_id" := VString Sample.alice_id]} {["_id" := VObjectId 1%N]}
              Sample.move_alice_bare Sample.new_address
              Sample.members members_wf_collection alice_id_cast Hfields)
    as (_ & Hreturns & Hpost).
  destruct (Hreturns 0%nat Sample.alice alice_is_first_by_id) as (w' & Hrun);
    [left; vm_compute; reflexivity|].
  destruct (Hpost _ _ Hrun) as (i & doc & Hfind & _ & _ & Hstored & Hread).
  rewrite alice_is_first_by_id in Hfind. injection Hfind as <- <-.
  eexists _, w'. split_and!; [exact Hrun|vm_compute; reflexivity| |].
  - apply findOneAndUpdate_Ok in Hrun as (i & doc & fields & Hfields' & Hfind & Hset & ->).
    rewrite alice_is_first_by_id in Hfind. injection Hfind as <- <-.
    rewrite Hfields in Hfields'. injection Hfields' as <-.
    vm_compute. reflexivity.
  - apply Hread. vm_compute. reflexivity.
Defined.

(** An identifier that is not one: nothing matches it, and what the call
    throws is the cast's error, with nothing logged. *)
Lemma findOneAndUpdate_returns_post_update_counterexample :
  Forall (λ doc, ¬ Model.matches Sample.malformed doc) (collection Sample.members)
  ∧ AbstractRepository.findOneAndUpdate Sample.malformed Sample.move_alice
      Sample.members = (Throw CastError, Sample.members).
Proof.
  split; [|vm_compute; reflexivity].
  apply (bool_decide_unpack _). vm_compute. exact I.
Qed.

(** Alice leaves. *)
Lemma findOneAndDelete_returns_pre_deletion_witness :
  wf_collection (collection Sample.members)
  ∧ Model.cast_filter {["_id" := VString Sample.alice_id]}
    = Ok {["_id" := VObjectId 1%N]}
  ∧ ∃ w' w'',
      AbstractRepository.findOneAndDelete {["_id" := VString Sample.alice_id]}
        Sample.members = (Ok Sample.alice, w')
      ∧ collection w' = [Sample.erin]
      ∧ AbstractRepository.findOne {["_id" := VObjectId 1%N]} w'
        = (Throw (NotFoundException "Document not found"), w'').
Proof.
  split_and!; [apply members_wf_collection|exact alice_id_cast|].
  destruct (findOneAndDelete_returns_pre_deletion
              {["_id" := VString Sample.alice_id]} {["_id" := VObjectId 1%N]}
              Sample.members members_wf_collection alice_id_cast)
    as (_ & Hreturns).
  destruct (Hreturns 0%nat Sample.alice alice_is_first_by_id)
    as (w' & Hrun & _ & Hc & Hread).
  destruct (Hread 1%N) as (w'' & Hgone); [vm_compute; reflexivity|].
  exists w', w''. split_and!; [exact Hrun|exact Hc|exact Hgone].
Defined.

Lemma findOneAndDelete_returns_pre_deletion_counterexample :
  Forall (λ doc, ¬ Model.matches Sample.malformed doc) (collection Sample.members)
  ∧ AbstractRepository.findOneAndDelete Sample.malformed Sample.members
    = (Throw CastError, Sample.members).
Proof.
  split; [|vm_compute; reflexivity].
  apply (bool_decide_unpack _). vm_compute. exact I.
Qed.

(** Nobody has this address. *)
Lemma findOne_NotFound_find_empty_witness :
  Model.cast_filter (Sample.by_email "nobody@example.com")
  = Ok (Sample.by_email "nobody@example.com")
  ∧ Forall (λ doc, ¬ Model.matches (Sample.by_email "nobody@example.com") doc)
      (collection Sample.members)
  ∧ (∃ w', AbstractRepository.findOne (Sample.by_email "nobody@example.com")
             Sample.members
           = (Throw (NotFoundException "Document not found"), w'))
  ∧ AbstractRepository.find (Sample.by_email "nobody@example.com")
      Sample.members = (Ok [], Sample.members).
Proof.
  assert (Model.cast_filter (Sample.by_email "nobody@example.com")
          = Ok (Sample.by_email "nobody@example.com")) as Hcast
    by (vm_compute; reflexivity).
  assert (Forall (λ doc, ¬ Model.matches (Sample.by_email "nobody@example.com") doc)
            (collection Sample.members)) as Hnone.
  { apply (bool_decide_unpack _). vm_compute. exact I. }
  split; [exact Hcast|]. split; [exact Hnone|].
  destruct (findOne_NotFound_find_empty _ _ _ Hcast Hnone)
    as [(w' & Hthrows & _) Hempty].
  split; [exists w'; exact Hthrows|exact Hempty].
Defined.

(** With an identifier that is not one, no document matches, [findOne]
    throws the cast's error and [find] throws too. *)
Lemma findOne_NotFound_find_empty_counterexample :
  Forall (λ doc, ¬ Model.matches Sample.malformed doc) (collection Sample.members)
  ∧ AbstractRepository.findOne Sample.malformed Sample.members
    = (Throw CastError, Sample.members)
  ∧ AbstractRepository.find Sample.malformed Sample.members
    = (Throw CastError, Sample.members).
Proof.
  split_and!; [|vm_compute; reflexivity..].
  apply (bool_decide_unpack _). vm_compute. exact I.
Qed.

(** Alice moves through the service, named by the string of her
    identifier. *)
Lemma update_is_partial_field_replacement_witness :
  ∃ doc' w',
    UsersService.update Sample.digest Sample.alice_id Sample.new_address
      Sample.members = (Ok doc', w')
    ∧ doc' = <["email" := VString "alice@example.org"]> Sample.alice
    ∧ partial_replacement Sample.new_address Sample.members doc' w'.
Proof.
  assert (UsersService.update Sample.digest Sample.alice_id Sample.new_address
            Sample.members
          = (Ok (<["email" := VString "alice@example.org"]> Sample.alice),
             with_collection
               [<["email" := VString "alice@example.org"]> Sample.alice;
                Sample.erin] Sample.members)) as Hrun
    by (vm_compute; reflexivity).
  eexists _, _. split; [exact Hrun|]. split; [reflexivity|].
  exact (proj2 (update_is_partial_field_replacement Sample.digest)
           _ _ _ _ _ Hrun).
Defined.

(** Dave signs up. *)
Lemma create_stores_password_digest_witness :
  wf Sample.two_users
  ∧ Sample.dave !! "password" = Some (VString "hunter2")
  ∧ Sample.digest "hunter2" 10 ≠ "hunter2"
  ∧ ∃ doc w',
      UsersService.create Sample.next_ObjectId Sample.digest Sample.dave
        Sample.two_users = (Ok doc, w')
      ∧ doc !! "password" = Some (VString "$2b$hunter2")
      ∧ doc !! "email" = Some (VString "dave@example.com").
Proof.
  assert (Sample.dave !! "password" = Some (VString "hunter2")) as Hpw
    by (vm_compute; reflexivity).
  split_and!; [apply two_users_wf|exact Hpw|apply digest_not_identity|].
  destruct (create_stores_password_digest Sample.next_ObjectId Sample.digest
              next_ObjectId_fresh Sample.dave "hunter2" Sample.two_users
              two_users_wf Hpw (digest_not_identity _ _))
    as (_ & doc & w' & Hrun & _ & Hdigest & _ & Hrest).
  exists doc, w'. split_and!; [exact Hrun|exact Hdigest|].
  rewrite Hrest by done. vm_compute. reflexivity.
Defined.

(** C6, where the code departs from it.  On a host on the east coast of
    the United States, at 01:30 local time in the night its clocks go
    forward, with [JWT_EXPIRATION] 7200: [login] returns, the token in the
    cookie has the payload of [_id] and [email], the cookie is
    [Authentication] with [httpOnly] set, and its [expires] is the
    invocation time plus 3600 seconds, not plus the 7200 configured. *)
Theorem login_cookie_expiry_across_clock_change :
  config Sample.that_night !! "JWT_EXPIRATION" = Some 7200
  ∧ clock Sample.that_night = 1741501800000
  ∧ ∃ token body,
      AuthService.login Sample.eastern Sample.mac Sample.carol Sample.no_cookies
        Sample.that_night
      = (Ok (body,
             {| cookies :=
                  [{| cookie_name := "Authentication";
                      cookie_value := TokenValue token;
                      httpOnly := true;
                      expires := Some 1741505400000 |}] |}),
         Sample.that_night)
      ∧ JwtService.payload token =
          JObject [("_id", JString "0000000000000000000000ff");
                   ("email", JString "carol@example.com")]
      ∧ 1741505400000 = clock Sample.that_night + 3600 * 1000
      ∧ 1741505400000 ≠ clock Sample.that_night + 7200 * 1000.
Proof.
  split; [vm_compute; reflexivity|]. split; [reflexivity|].
  eexists _, _. split_and!;
    [vm_compute; reflexivity|reflexivity|reflexivity|vm_compute; discriminate].
Qed.


(** Carol with one password hash or another. *)
Lemma login_body_hides_password_witness :
  _id Sample.carol = _id Sample.carol'
  ∧ email Sample.carol = email Sample.carol'
  ∧ password Sample.carol ≠ password Sample.carol'
  ∧ AuthService.login Sample.utc Sample.mac Sample.carol Sample.no_cookies
      Sample.empty_world
    = AuthService.login Sample.utc Sample.mac Sample.carol' Sample.no_cookies
        Sample.empty_world.
Proof.
  split_and!; [reflexivity|reflexivity|discriminate|].
  exact (proj1 (login_body_hides_password Sample.utc Sample.mac
                  Sample.carol Sample.carol' Sample.no_cookies
                  Sample.empty_world eq_refl eq_refl)).
Defined.

(** * More of what the code does *)

(** ** The repository: misses, reads and sizes *)

Section RepositoryReads.

Implicit Types (filterQuery : QueryFilter) (update : UpdateQuery) (w : World).

Lemma head_filter_list_find filterQuery (c : list Document) :
  head (filter (Model.matches filterQuery) c)
  = snd <$> list_find (Model.matches filterQuery) c.
Proof.
  induction c as [|d c IH]; [done|]. cbn [list_find].
  destruct (decide (Model.matches filterQuery d)) as [Hd|Hd].
  - by rewrite filter_cons_True.
  - rewrite filter_cons_False by done. rewrite IH.
    by destruct (list_find _ c) as [[i x]|].
Qed.

(** X1. When the filter and the update can be cast to the schema and no
    stored document matches, [findOne], [findOneAndUpdate] and
    [findOneAndDelete] all throw the same [NotFoundException] after one call
    of [logger.warn] that carries the filter as it was given; that log entry
    is the only difference between the world before and the world after. *)
Theorem not_found_is_logged_with_filter filterQuery cast update fields w :
  Model.cast_filter filterQuery = Ok cast →
  Model.cast_update (set_of update) = Ok fields →
  Forall (λ doc, ¬ cast ⊆ doc) (collection w) →
  let w' := with_logged (logged w ++
              [{| log_message := "Document was not found with filterQuery: ";
                  log_filter := filterQuery |}]) w in
  AbstractRepository.findOne filterQuery w
    = (Throw (NotFoundException "Document not found"), w')
  ∧ AbstractRepository.findOneAndUpdate filterQuery update w
    = (Throw (NotFoundException "Document not found"), w')
  ∧ AbstractRepository.findOneAndDelete filterQuery w
    = (Throw (NotFoundException "Document not found"), w').
Proof.
  intros Hcast Hfields Hnone.
  assert (list_find (Model.matches filterQuery) (collection w) = None) as Hfind.
  { apply list_find_None. eapply Forall_impl; [exact Hnone|]. simpl.
    intros doc Hdoc Hm. by apply Hdoc, (matches_cast _ _ _ Hcast). }
  simpl. split_and!.
  - by eapply findOne_missing.
  - by eapply findOneAndUpdate_missing.
  - by eapply findOneAndDelete_missing.
Qed.

(** X2. [findOne] and [find] agree: [findOne] returns a document exactly
    when [find] returns a sequence that starts with it, and throws
    [NotFoundException] exactly when [find] returns the empty sequence. *)
Theorem findOne_is_first_of_find filterQuery w :
  (∀ doc, AbstractRepository.findOne filterQuery w = (Ok doc, w)
          ↔ ∃ rest, AbstractRepository.find filterQuery w = (Ok (doc :: rest), w))
  ∧ (fst (AbstractRepository.findOne filterQuery w)
       = Throw (NotFoundException "Document not found")
     ↔ AbstractRepository.find filterQuery w = (Ok [], w)).
Proof.
  destruct (Model.cast_filter filterQuery) as [cast|e] eqn:Hcast.
  - rewrite (find_castable _ _ _ Hcast).
    pose proof (head_filter_list_find filterQuery (collection w)) as Hhead.
    destruct (list_find (Model.matches filterQuery) (collection w))
      as [[i d]|] eqn:Hfind; simpl in Hhead.
    + rewrite (findOne_found _ _ _ _ Hfind).
      destruct (filter (Model.matches filterQuery) (collection w)) as [|d' rest];
        [done|]. simpl in Hhead. injection Hhead as ->. split.
      * intros doc. split.
        -- intros [= <-]. by exists rest.
        -- intros (rest' & [= <- _]). done.
      * simpl. split; intros [=].
    + rewrite (findOne_missing _ _ _ Hcast Hfind).
      destruct (filter (Model.matches filterQuery) (collection w)) as [|d' rest];
        [|done]. split.
      * intros doc. split; [intros [=]|intros (rest' & [=])].
      * done.
  - rewrite (findOne_uncastable _ _ _ Hcast), (find_uncastable _ _ _ Hcast).
    unfold Model.cast_filter in Hcast. case_decide; [done|].
    injection Hcast as <-. split.
    + intros doc. split; [intros [=]|intros (rest' & [=])].
    + simpl. split; intros [=].
Qed.

(** X3. For a filter that can be cast to the schema, [find] returns the
    stored documents that carry every field of the cast filter, each as
    often as it is stored and in the order of the collection; for
    [UsersService.findAll], whose filter is empty, that is the whole
    collection.  Neither changes the world. *)
Theorem find_returns_the_matches filterQuery cast w :
  Model.cast_filter filterQuery = Ok cast →
  (∃ docs, AbstractRepository.find filterQuery w = (Ok docs, w)
           ∧ docs `sublist_of` collection w
           ∧ ∀ doc, doc ∈ docs ↔ doc ∈ collection w ∧ cast ⊆ doc)
  ∧ UsersService.findAll w = (Ok (collection w), w).
Proof.
  intros Hcast. split.
  - eexists. split_and!; [by eapply find_castable|apply sublist_filter|].
    intros doc. rewrite list_elem_of_filter, (matches_cast _ _ _ Hcast). tauto.
  - unfold UsersService.findAll. run_monad.
    rewrite (find_castable _ _ _ cast_filter_empty). do 2 f_equal.
    induction (collection w) as [|d c IH]; [done|].
    rewrite filter_cons_True by apply matches_empty. by rewrite IH.
Qed.

End RepositoryReads.

(** ** The repository: what a call changes and what it leaves *)

Section RepositoryWrites.

Variable ObjectId_generate : list ObjectId → ObjectId.

Implicit Types (filterQuery : QueryFilter) (update : UpdateQuery) (w : World).

(** X4. A [create] that returns makes the collection one document longer, a
    [findOneAndDelete] that returns makes it one shorter, and a
    [findOneAndUpdate] that returns keeps its length. *)
Theorem collection_length_after_write fields filterQuery update w :
  (∀ doc w', AbstractRepository.create ObjectId_generate fields w = (Ok doc, w') →
     length (collection w') = S (length (collection w)))
  ∧ (∀ doc w', AbstractRepository.findOneAndUpdate filterQuery update w = (Ok doc, w') →
       length (collection w') = length (collection w))
  ∧ (∀ doc w', AbstractRepository.findOneAndDelete filterQuery w = (Ok doc, w') →
       S (length (collection w')) = length (collection w)).
Proof.
  split_and!.
  - intros doc w' (_ & _ & ->)%create_Ok. rewrite length_app. simpl. lia.
  - intros doc w' (i & d & f & _ & _ & _ & ->)%findOneAndUpdate_Ok. simpl.
    apply length_insert.
  - intros doc w' (i & (Hi & _)%list_find_Some & ->)%findOneAndDelete_Ok. simpl.
    rewrite length_delete by eauto. apply lookup_lt_Some in Hi. lia.
Qed.

(** X5. The reads never change a stored document, and a write that throws
    (no match, a refused update, a refused insert) leaves the collection as
    it was. *)
Theorem collection_unchanged_by_reads_and_failures fields filterQuery update w :
  collection (snd (AbstractRepository.findOne filterQuery w)) = collection w
  ∧ collection (snd (AbstractRepository.find filterQuery w)) = collection w
  ∧ (∀ e, fst (AbstractRepository.create ObjectId_generate fields w) = Throw e →
       collection (snd (AbstractRepository.create ObjectId_generate fields w))
       = collection w)
  ∧ (∀ e, fst (AbstractRepository.findOneAndUpdate filterQuery update w) = Throw e →
       collection (snd (AbstractRepository.findOneAndUpdate filterQuery update w))
       = collection w)
  ∧ (∀ e, fst (AbstractRepository.findOneAndDelete filterQuery w) = Throw e →
       collection (snd (AbstractRepository.findOneAndDelete filterQuery w))
       = collection w).
Proof.
  split_and!.
  - apply findOne_world.
  - by rewrite find_world.
  - intros e. rewrite create_run. simpl. by case_decide.
  - intros e He. by apply (findOneAndUpdate_Throw _ _ _ e).
  - intros e.
    destruct (AbstractRepository.findOneAndDelete filterQuery w)
      as [[doc|e'] w'] eqn:Hrun; [done|]. intros _. revert Hrun.
    unfold AbstractRepository.findOneAndDelete, Model.findOneAndDelete.
    run_monad. destruct (Model.cast_filter filterQuery); [|by intros [= _ <-]].
    destruct (list_find _ _) as [[i d]|]; [done|]. by intros [= _ <-].
Qed.

End RepositoryWrites.

(** ** The repository: calls one after the other *)

Section RepositoryComposition.

Variable ObjectId_generate : list ObjectId → ObjectId.

Implicit Types (filterQuery : QueryFilter) (update : UpdateQuery) (w : World).

(** Removing one document keeps every other one in the collection. *)
Lemma elem_of_delete_other (c : list Document) i doc other :
  c !! i = Some doc → other ∈ c → other ≠ doc → other ∈ delete i c.
Proof.
  intros Hi Hin Hne. rewrite delete_take_drop.
  rewrite <- (take_drop_middle c i doc Hi) in Hin.
  rewrite elem_of_app, elem_of_cons in Hin. rewrite elem_of_app.
  destruct Hin as [?|[?|?]]; [by left|done|by right].
Qed.

(** What a filter on [_id] alone is cast to, when it can be cast: the
    filter on one identifier. *)
Lemma cast_filter_on_id v cast :
  Model.cast_filter {["_id" := v]} = Ok cast →
  ∃ o, cast = {["_id" := VObjectId o]}.
Proof.
  rewrite cast_filter_singleton.
  destruct (Model.cast_path "_id" v) as [v'|] eqn:Hv; [|done].
  intros [= <-]. revert Hv.
  change (Model.cast_path "_id" v) with (Model.cast_value SchemaObjectId v).
  destruct v as [s|o| | | |]; simpl; try done.
  - destruct (ObjectId_of_hex s) as [o|]; [|done]. intros [= <-]. eauto.
  - intros [= <-]. eauto.
Qed.

(** In a well-formed collection, a search by a filter that is cast to a
    filter on one identifier finds the one document that carries it. *)
Lemma find_by_cast_id filterQuery (c : list Document) i doc o :
  Model.cast_filter filterQuery = Ok {["_id" := VObjectId o]} →
  wf_collection c → c !! i = Some doc → doc_id doc = Some (VObjectId o) →
  list_find (Model.matches filterQuery) c = Some (i, doc).
Proof.
  intros Hcast Hwf Hi Hid.
  pose proof (find_by_id c i doc o Hwf Hi Hid) as (_ & Hm & Hfirst)%list_find_Some.
  apply list_find_Some. split_and!; [done| |].
  - apply (matches_cast _ _ _ Hcast).
    by apply (matches_cast _ _ _ (cast_filter_id o)).
  - intros j d Hj Hlt Hd. apply (Hfirst j d Hj Hlt).
    apply (matches_cast _ _ _ (cast_filter_id o)).
    by apply (matches_cast _ _ _ Hcast).
Qed.

(** X6. An update that sets fields, addressed by [_id] alone (the
    identifier or its hexadecimal string), can be repeated: the second call
    returns the same document as the first and leaves the world as the
    first left it. *)
Theorem findOneAndUpdate_by_id_twice v update w doc' w' :
  wf_collection (collection w) →
  AbstractRepository.findOneAndUpdate {["_id" := v]} update w = (Ok doc', w') →
  AbstractRepository.findOneAndUpdate {["_id" := v]} update w' = (Ok doc', w').
Proof.
  intros Hwf (i & doc & fields & Hfields & Hfind & Hset & ->)%findOneAndUpdate_Ok.
  pose proof Hfind as (Hi & Hm & _)%list_find_Some.
  pose proof Hm as [cast Hcast]%matches_castable.
  pose proof Hcast as [o ->]%cast_filter_on_id.
  apply (proj1 (matches_cast _ _ doc Hcast)) in Hm.
  apply (proj1 (map_singleton_subseteq_l _ _ doc)) in Hm.
  pose proof Hset as [Hdoc' Hid]%apply_set_Ok.
  pose proof (lookup_lt_Some _ _ _ Hi) as Hlt.
  assert (<[i := doc']> (collection w) !! i = Some doc') as Hi'
    by by apply list_lookup_insert_eq.
  assert (list_find (Model.matches {["_id" := v]}) (<[i := doc']> (collection w))
          = Some (i, doc')) as Hfind'.
  { eapply find_by_cast_id; [exact Hcast|by eapply wf_collection_insert|done|].
    by rewrite Hid. }
  assert (Model.apply_set fields doc' = Ok doc') as Hset'.
  { rewrite apply_set_accepts.
    - rewrite Hdoc'. by rewrite (assoc_L (∪)), (idemp_L (∪)).
    - revert Hset. unfold Model.apply_set.
      destruct (fields !! "_id") as [x|]; [|by left].
      case_decide as Hx; [|done]. intros _. right.
      unfold doc_id in Hid. by rewrite Hid, Hx.
    - unfold doc_id in Hid. rewrite Hid, Hm. eauto. }
  rewrite (findOneAndUpdate_updated _ _ _
             (with_collection (<[i := doc']> (collection w)) w) _ _ _
             Hfields Hfind' Hset').
  simpl. by rewrite list_insert_id.
Qed.

(** X7. An update leaves every other document readable by its identifier,
    as it was. *)
Theorem findOneAndUpdate_keeps_other_documents filterQuery update w doc' w' other o :
  wf_collection (collection w) →
  AbstractRepository.findOneAndUpdate filterQuery update w = (Ok doc', w') →
  other ∈ collection w →
  doc_id other = Some (VObjectId o) →
  doc_id other ≠ doc_id doc' →
  AbstractRepository.findOne {["_id" := VObjectId o]} w' = (Ok other, w').
Proof.
  intros Hwf (i & doc & fields & _ & Hfind & Hset & ->)%findOneAndUpdate_Ok Hin Hv Hne.
  apply list_find_Some in Hfind as (Hi & _).
  apply apply_set_Ok in Hset as [_ Hid].
  apply list_elem_of_lookup in Hin as [j Hj].
  assert (j ≠ i) as Hji.
  { intros ->. rewrite Hi in Hj. injection Hj as ->. by rewrite Hid in Hne. }
  eapply findOne_found. simpl. eapply find_by_id; [|  |exact Hv].
  - by eapply wf_collection_insert.
  - by rewrite list_lookup_insert_ne.
Qed.

(** X8. A deletion leaves every other document readable by its identifier,
    as it was. *)
Theorem findOneAndDelete_keeps_other_documents filterQuery w doc w' other o :
  wf_collection (collection w) →
  AbstractRepository.findOneAndDelete filterQuery w = (Ok doc, w') →
  other ∈ collection w →
  doc_id other = Some (VObjectId o) →
  doc_id other ≠ doc_id doc →
  AbstractRepository.findOne {["_id" := VObjectId o]} w' = (Ok other, w').
Proof.
  intros Hwf (i & (Hi & _)%list_find_Some & ->)%findOneAndDelete_Ok Hin Hv Hne.
  assert (other ∈ delete i (collection w)) as [j Hj]%list_elem_of_lookup.
  { eapply elem_of_delete_other; [done..|]. by intros ->. }
  eapply findOne_found. simpl. eapply find_by_id; [|exact Hj|exact Hv].
  by apply wf_collection_delete.
Qed.

Hypothesis ObjectId_generate_fresh : ∀ l, ObjectId_generate l ∉ l.

(** X9. Creating a document and deleting it by the [_id] it was given
    returns the created document and puts the collection back as it was. *)
Theorem create_then_delete_restores_collection fields w :
  wf w →
  ∃ o doc w1 w2,
    AbstractRepository.create ObjectId_generate fields w = (Ok doc, w1)
    ∧ doc_id doc = Some (VObjectId o)
    ∧ AbstractRepository.findOneAndDelete {["_id" := VObjectId o]} w1 = (Ok doc, w2)
    ∧ collection w2 = collection w.
Proof.
  intros Hwf.
  pose proof (create_in_wf_world ObjectId_generate ObjectId_generate_fresh
                fields w Hwf) as Hrun. simpl in Hrun.
  set (o := ObjectId_generate (issued w)) in *.
  set (doc := <["_id" := VObjectId o]> fields) in *.
  assert (doc_id doc = Some (VObjectId o)) as Hid by apply lookup_insert_eq.
  assert (list_find (Model.matches {["_id" := VObjectId o]}) (collection w ++ [doc])
          = Some (length (collection w), doc)) as Hfind.
  { eapply find_by_id; [|  |exact Hid].
    - eapply wf_collection_snoc; [apply Hwf|exact Hid|].
      by apply fresh_not_stored.
    - rewrite lookup_app_r by done. by rewrite Nat.sub_diag. }
  eexists o, doc, _, _. split_and!; [exact Hrun|exact Hid| |].
  - by apply findOneAndDelete_deleted.
  - simpl. rewrite delete_take_drop, take_app_length.
    rewrite drop_ge; [by rewrite app_nil_r|].
    rewrite length_app. simpl. lia.
Qed.

(** X10. After a [create], [find] returns what it returned before, followed
    by the new document when that one matches the filter. *)
Theorem find_after_create fields filterQuery w :
  wf w →
  ∃ doc w1,
    AbstractRepository.create ObjectId_generate fields w = (Ok doc, w1)
    ∧ ∀ docs, AbstractRepository.find filterQuery w = (Ok docs, w) →
        AbstractRepository.find filterQuery w1 =
          (Ok (docs ++ if decide (Model.matches filterQuery doc) then [doc] else []),
           w1).
Proof.
  intros Hwf.
  pose proof (create_in_wf_world ObjectId_generate ObjectId_generate_fresh
                fields w Hwf) as Hrun. simpl in Hrun.
  eexists _, _. split; [exact Hrun|].
  intros docs.
  destruct (Model.cast_filter filterQuery) as [cast|e] eqn:Hcast;
    [|by rewrite (find_uncastable _ _ _ Hcast)].
  rewrite !(find_castable _ _ _ Hcast). intros [= <-]. simpl.
  by rewrite filter_app.
Qed.

(** X11. In every world that repository calls reach from an empty
    collection, each stored document has an [_id] and is the document that
    [findOne] returns for that [_id]. *)
Theorem stored_documents_are_found_by_id w0 w doc :
  collection w0 = [] →
  later ObjectId_generate w0 w →
  doc ∈ collection w →
  ∃ v, doc_id doc = Some v
       ∧ AbstractRepository.findOne {["_id" := v]} w = (Ok doc, w).
Proof.
  intros Hempty Hlater [i Hi]%list_elem_of_lookup.
  assert (wf w) as [Hwf _].
  { eapply wf_later; [exact ObjectId_generate_fresh| |exact Hlater].
    by apply wf_empty. }
  assert (Forall (λ doc, ∃ o, doc_id doc = Some (VObjectId o)) (collection w))
    as Hids.
  { eapply ObjectIds_later; [|exact Hlater]. rewrite Hempty. apply Forall_nil_2. }
  destruct (Forall_lookup_1 _ _ _ _ Hids Hi) as [o Ho].
  exists (VObjectId o). split; [done|].
  eapply findOne_found. by eapply find_by_id.
Qed.

End RepositoryComposition.

(** ** The users service: passwords and identifiers *)

Section UsersPasswords.

Variable ObjectId_generate : list ObjectId → ObjectId.
Variable bcrypt_hash : string → N → string.

(** X12. [UsersService.create] hashes before it persists: for an input
    whose password is absent or not a string the hashing rejects, and the
    call throws with no identifier drawn and nothing stored. *)
Theorem create_rejected_before_persisting createUserInput w :
  (∀ s, createUserInput !! "password" ≠ Some (VString s)) →
  UsersService.create ObjectId_generate bcrypt_hash createUserInput w
  = (Throw BcryptError, w).
Proof.
  intros Hpw. unfold UsersService.create, UsersService.hashPassword,
    UsersService.bcrypt_hash_async.
  destruct (createUserInput !! "password") as [[s| | | | |]|]; try done.
  by destruct (Hpw s).
Qed.

(** The [$set] of an input with a truthy password carries a promise under
    [password]. *)
Lemma update_set_promise updateUserInput w :
  truthy (updateUserInput !! "password") = true →
  ∃ p, UsersService.update_set bcrypt_hash updateUserInput w
       = (Ok (<["password" := p]> updateUserInput), w)
       ∧ Model.cast_path "password" p = None.
Proof.
  intros Htruthy. unfold UsersService.update_set. rewrite Htruthy.
  unfold promise, UsersService.hashPassword, UsersService.bcrypt_hash_async.
  run_monad.
  destruct (updateUserInput !! "password") as [[s| | | | |]|]; simpl; eauto.
Qed.

(** A promise among the fields of an update cannot be cast to a string. *)
Lemma cast_update_refuses fields p :
  Model.cast_path "password" p = None →
  Model.cast_update (<["password" := p]> fields) = Throw CastError.
Proof.
  intros Hp. unfold Model.cast_update. rewrite decide_False; [done|].
  intros Hall. specialize (Hall "password" p (lookup_insert_eq _ _ _)).
  simpl in Hall. rewrite Hp in Hall. by destruct Hall.
Qed.

(** The cast of a filter throws no other error than [CastError]. *)
Lemma cast_filter_Throw filterQuery e :
  Model.cast_filter filterQuery = Throw e → e = CastError.
Proof. unfold Model.cast_filter. case_decide; [done|]. by intros [= <-]. Qed.

(** X13. [UsersService.update] calls [hashPassword] without [await]: for an
    input with a non-empty password the [$set] it sends has under [password]
    the promise of the digest, which cannot be cast to the string of the
    schema.  The call throws [CastError] and the world is as it was: no
    password is changed through [update]. *)
Theorem update_with_password_is_refused _id updateUserInput plaintext w :
  updateUserInput !! "password" = Some (VString plaintext) →
  plaintext ≠ EmptyString →
  UsersService.update bcrypt_hash _id updateUserInput w = (Throw CastError, w).
Proof.
  intros Hpw Hne.
  assert (truthy (updateUserInput !! "password") = true) as Htruthy.
  { rewrite Hpw. simpl. by destruct (String.eqb_spec plaintext EmptyString). }
  destruct (update_set_promise updateUserInput w Htruthy) as (p & Hrun & Hp).
  unfold UsersService.update. unfold bind at 1. rewrite Hrun.
  unfold AbstractRepository.findOneAndUpdate, Model.findOneAndUpdate.
  run_monad. rewrite (cast_update_refuses _ _ Hp).
  destruct (Model.cast_filter _) as [cast|e] eqn:Hcast; [done|].
  by rewrite (cast_filter_Throw _ _ Hcast).
Qed.

(** Without a truthy password the service sends its input as the
    [$set]. *)
Lemma update_without_password _id updateUserInput w :
  truthy (updateUserInput !! "password") = false →
  UsersService.update bcrypt_hash _id updateUserInput w
  = AbstractRepository.findOneAndUpdate {["_id" := VString _id]}
      (UpdateSet updateUserInput) w.
Proof.
  intros Hfalsy. unfold UsersService.update, UsersService.update_set.
  rewrite Hfalsy. unfold bind, ret.
  by destruct (AbstractRepository.findOneAndUpdate _ _ w) as [[?|?] ?].
Qed.

(** X14. Without a truthy password in the input (none, or the empty
    string), [UsersService.update] hashes nothing and sends the input as the
    [$set]: a password given as the empty string is stored as given, and
    with no password in the input the stored one stays. *)
Theorem update_without_truthy_password _id updateUserInput w :
  truthy (updateUserInput !! "password") = false →
  UsersService.update bcrypt_hash _id updateUserInput w
  = AbstractRepository.findOneAndUpdate {["_id" := VString _id]}
      (UpdateSet updateUserInput) w
  ∧ ∀ doc' w',
      UsersService.update bcrypt_hash _id updateUserInput w = (Ok doc', w') →
      (updateUserInput !! "password" = Some (VString EmptyString) →
       doc' !! "password" = Some (VString EmptyString))
      ∧ (updateUserInput !! "password" = None →
         ∃ i doc, collection w !! i = Some doc
                  ∧ collection w' !! i = Some doc'
                  ∧ doc' !! "password" = doc !! "password").
Proof.
  intros Hfalsy. rewrite (update_without_password _ _ _ Hfalsy).
  split; [done|].
  intros doc' w' (i & doc & fields & Hfields & (Hi & _)%list_find_Some
                  & [-> _]%apply_set_Ok & ->)%findOneAndUpdate_Ok.
  simpl in *. split.
  - intros Hempty. apply lookup_union_Some_l.
    revert Hfields. unfold Model.cast_update. case_decide; [|done].
    intros [= <-]. by rewrite map_lookup_imap, Hempty.
  - intros Hnone. exists i, doc. split_and!; [done| |].
    + apply list_lookup_insert_eq. by eapply lookup_lt_Some.
    + apply lookup_union_r. by eapply cast_update_names.
Qed.

(** X19. The service names a user by the hexadecimal string of the
    identifier: for an identifier of twelve bytes carried by a stored
    document, [findOne] returns that document, [remove] returns it and
    takes it out of the collection, and [update], for an input without a
    truthy password that can be cast and leaves [_id] out, returns and
    stores the input's cast fields laid over it. *)
Theorem service_finds_by_hexadecimal_string o i doc w :
  wf_collection (collection w) →
  (o < 2 ^ 96)%N →
  collection w !! i = Some doc →
  doc_id doc = Some (VObjectId o) →
  UsersService.findOne (toHexString o) w = (Ok doc, w)
  ∧ UsersService.remove (toHexString o) w
    = (Ok doc, with_collection (delete i (collection w)) w)
  ∧ ∀ updateUserInput fields,
      truthy (updateUserInput !! "password") = false →
      Model.cast_update updateUserInput = Ok fields →
      fields !! "_id" = None →
      UsersService.update bcrypt_hash (toHexString o) updateUserInput w
      = (Ok (fields ∪ doc),
         with_collection (<[i := fields ∪ doc]> (collection w)) w).
Proof.
  intros Hwf Ho Hi Hid.
  assert (list_find (Model.matches {["_id" := VString (toHexString o)]})
            (collection w) = Some (i, doc)) as Hfind
    by (eapply find_by_cast_id; [by apply cast_filter_hex|done..]).
  split_and!.
  - unfold UsersService.findOne. unfold bind.
    by rewrite (findOne_found _ _ _ _ Hfind).
  - unfold UsersService.remove. unfold bind.
    by rewrite (findOneAndDelete_deleted _ _ _ _ Hfind).
  - intros input fields Hfalsy Hfields Hnone.
    rewrite (update_without_password _ _ _ Hfalsy).
    eapply findOneAndUpdate_updated; [exact Hfields|exact Hfind|].
    apply apply_set_accepts; [by left|].
    unfold doc_id in Hid. rewrite Hid. eauto.
Qed.

(** X20. A string that is not an identifier names nobody: [findOne],
    [update] and [remove] of the service throw [CastError], with nothing
    logged and nothing changed. *)
Theorem service_refuses_malformed_identifier _id updateUserInput w :
  ObjectId_of_hex _id = None →
  UsersService.findOne _id w = (Throw CastError, w)
  ∧ UsersService.update bcrypt_hash _id updateUserInput w = (Throw CastError, w)
  ∧ UsersService.remove _id w = (Throw CastError, w).
Proof.
  intros Hid. pose proof (cast_filter_not_hex _ Hid) as Hcast. split_and!.
  - unfold UsersService.findOne. unfold bind.
    by rewrite (findOne_uncastable _ _ _ Hcast).
  - destruct (update_set_names bcrypt_hash updateUserInput w)
      as (fields & Hrun & _).
    unfold UsersService.update. unfold bind at 1. rewrite Hrun.
    unfold AbstractRepository.findOneAndUpdate, Model.findOneAndUpdate.
    run_monad. by rewrite Hcast.
  - unfold UsersService.remove, AbstractRepository.findOneAndDelete,
      Model.findOneAndDelete.
    run_monad. by rewrite Hcast.
Qed.

End UsersPasswords.

(** ** The session manager *)

Section HexInjective.

Lemma append_inj_length (s1 s2 t1 t2 : string) :
  String.length s1 = String.length s2 →
  s1 +:+ t1 = s2 +:+ t2 → s1 = s2 ∧ t1 = t2.
Proof.
  revert s2. induction s1 as [|c s1 IH]; intros [|c' s2]; simpl; try done.
  intros [= Hlen] [= -> Happ]. destruct (IH _ Hlen Happ) as [-> ->]. done.
Qed.

Lemma hex_digit_inj a b :
  (a < 16)%N → (b < 16)%N → hex_digit a = hex_digit b → a = b.
Proof.
  intros Ha Hb Heq. apply (f_equal Ascii.N_of_ascii) in Heq. revert Heq.
  unfold hex_digit.
  destruct (N.ltb_spec a 10), (N.ltb_spec b 10);
    rewrite !Ascii.N_ascii_embedding by lia; lia.
Qed.

Lemma to_hex_inj digits n m :
  to_hex digits n = to_hex digits m →
  (n mod 16 ^ N.of_nat digits = m mod 16 ^ N.of_nat digits)%N.
Proof.
  revert n m. induction digits as [|digits IH]; intros n m.
  - intros _. simpl. by rewrite !N.mod_1_r.
  - simpl to_hex. intros Heq.
    apply append_inj_length in Heq as [Hhigh [= Hlow]];
      [|by rewrite !to_hex_length].
    apply IH in Hhigh.
    apply hex_digit_inj in Hlow; [|by apply N.mod_lt..].
    rewrite Nat2N.inj_succ, N.pow_succ_r'.
    rewrite !N.Div0.mod_mul_r. by rewrite Hhigh, Hlow.
Qed.

(** Identifiers of twelve bytes are told apart by their hexadecimal
    strings. *)
Lemma toHexString_inj (o1 o2 : ObjectId) :
  (o1 < 2 ^ 96)%N → (o2 < 2 ^ 96)%N →
  toHexString o1 = toHexString o2 → o1 = o2.
Proof.
  intros H1 H2 Heq%to_hex_inj.
  change (16 ^ N.of_nat 24)%N with (2 ^ 96)%N in Heq.
  by rewrite !N.mod_small in Heq.
Qed.

End HexInjective.

Section Sessions.

Variable LocalTZA : Z → bool → Z.
Variable hmac : Json → Z → Z → N.

Implicit Types (user : User) (response : Response) (w : World).

(** X15. What decides the outcome of [login]: without [JWT_EXPIRATION] in
    the configuration it throws the error of [getOrThrow] for that key;
    with it, it returns when the expiry it computes is a representable
    date, and throws the [TypeError] of [response.cookie] when it is not.
    In every case the world is left as it was. *)
Theorem login_needs_configured_expiration user response w :
  match config w !! "JWT_EXPIRATION" with
  | Some n =>
      if decide (Z.abs (JSDate.UTC LocalTZA
                          (JSDate.LocalTime LocalTZA (clock w) + n * 1000))
                 ≤ 8640000000000000)
      then ∃ body response',
             AuthService.login LocalTZA hmac user response w
             = (Ok (body, response'), w)
      else AuthService.login LocalTZA hmac user response w
           = (Throw TypeError, w)
  | None =>
      AuthService.login LocalTZA hmac user response w
      = (Throw (ConfigError "JWT_EXPIRATION"), w)
  end.
Proof.
  destruct (config w !! "JWT_EXPIRATION") as [n|] eqn:Hn.
  - case_decide as Hrange.
    + rewrite (login_run _ _ _ _ _ _ Hn Hrange). eauto.
    + apply (login_invalid_expiry _ _ _ _ _ _ Hn). lia.
  - by apply login_unconfigured.
Qed.

(** X16. The expiry of the cookie is computed on the local clock of the
    host: it is the invocation time plus the expiration, plus the amount by
    which the zone offset at the invocation exceeds the offset in force at
    the local expiry.  Across a change of offset the cookie therefore
    outlives, or dies before, the configured duration by that amount. *)
Theorem login_cookie_expiry_on_local_clock user response w n :
  config w !! "JWT_EXPIRATION" = Some n →
  let drift :=
    LocalTZA (clock w) true
    - LocalTZA (clock w + LocalTZA (clock w) true + n * 1000) false in
  Z.abs (clock w + n * 1000 + drift) ≤ 8640000000000000 →
  ∃ token body,
    AuthService.login LocalTZA hmac user response w =
      (Ok (body,
           {| cookies := cookies response ++
                [{| cookie_name := "Authentication";
                    cookie_value := TokenValue token;
                    httpOnly := true;
                    expires := Some (clock w + n * 1000 + drift) |}] |}),
       w).
Proof.
  intros Hn drift Hrange.
  assert (JSDate.UTC LocalTZA (JSDate.LocalTime LocalTZA (clock w) + n * 1000)
          = clock w + n * 1000 + drift) as Hexpiry
    by (unfold JSDate.UTC, JSDate.LocalTime, drift; lia).
  rewrite (login_run _ _ _ _ _ _ Hn) by (rewrite Hexpiry; exact Hrange).
  rewrite Hexpiry. eauto.
Qed.

(** X17. Where the expiry of the login cookie is a representable date,
    logging in and then out through the controller leaves on the response
    the cookies it had, then the cookie with the token, then the cookie
    [Authentication] with the empty value and the time of the logout as
    expiry: the last word on [Authentication] is the empty cookie.  The
    logout handler returns no body. *)
Theorem login_then_logout user response w n w2 :
  config w !! "JWT_EXPIRATION" = Some n →
  Z.abs (JSDate.UTC LocalTZA (JSDate.LocalTime LocalTZA (clock w) + n * 1000))
    ≤ 8640000000000000 →
  ∃ body token expiry response1 response2,
    AuthController.login LocalTZA hmac user response w
      = (Ok (body, response1), w)
    ∧ AuthController.logout response1 w2 = (Ok (tt, response2), w2)
    ∧ cookies response2 =
        cookies response ++
        [{| cookie_name := "Authentication"; cookie_value := TokenValue token;
            httpOnly := true; expires := Some expiry |};
         {| cookie_name := "Authentication"; cookie_value := TextValue EmptyString;
            httpOnly := true; expires := Some (clock w2) |}].
Proof.
  intros Hn Hrange. unfold AuthController.login, AuthController.logout.
  rewrite (login_run _ _ _ _ _ _ Hn Hrange).
  eexists _, _, _, _, _. split_and!; [reflexivity..|].
  simpl. by rewrite <- (assoc_L (++)).
Qed.

(** X18. The body and the token payload of [login] tell users apart: for
    identifiers of twelve bytes, two users for whom [login] returns the
    same outcome have the same [_id] and the same [email]. *)
Theorem login_outcome_determines_identity user1 user2 response w n :
  config w !! "JWT_EXPIRATION" = Some n →
  Z.abs (JSDate.UTC LocalTZA (JSDate.LocalTime LocalTZA (clock w) + n * 1000))
    ≤ 8640000000000000 →
  (_id user1 < 2 ^ 96)%N →
  (_id user2 < 2 ^ 96)%N →
  AuthService.login LocalTZA hmac user1 response w
    = AuthService.login LocalTZA hmac user2 response w →
  _id user1 = _id user2 ∧ email user1 = email user2.
Proof.
  intros Hn Hrange H1 H2. rewrite !(login_run _ _ _ _ _ _ Hn Hrange).
  intros Heq.
  assert (toHexString (_id user1) = toHexString (_id user2)) as Hhex
    by congruence.
  split; [by apply toHexString_inj|congruence].
Qed.

End Sessions.

(** ** These properties at work on the sample worlds *)

Lemma nobody_matches :
  Forall (λ doc, ¬ Sample.by_email "nobody@example.com" ⊆ doc)
    (collection Sample.members).
Proof. apply (bool_decide_unpack _). vm_compute. exact I. Qed.

Lemma by_email_cast address :
  Model.cast_filter (Sample.by_email address) = Ok (Sample.by_email address).
Proof. unfold Sample.by_email. by rewrite cast_filter_singleton. Qed.

Lemma move_alice_cast :
  Model.cast_update (set_of Sample.move_alice) = Ok Sample.new_address.
Proof. vm_compute. reflexivity. Qed.

Lemma erin_is_stored : Sample.erin ∈ collection Sample.members.
Proof. apply list_elem_of_further, list_elem_of_here. Qed.

(** Alice moves: the run of the update, by her address and by her [_id]. *)
Lemma alice_moves filterQuery :
  list_find (Model.matches filterQuery) (collection Sample.members)
    = Some (0%nat, Sample.alice) →
  AbstractRepository.findOneAndUpdate filterQuery Sample.move_alice
    Sample.members
  = (Ok (Sample.new_address ∪ Sample.alice),
     with_collection (<[0%nat := Sample.new_address ∪ Sample.alice]>
                        (collection Sample.members)) Sample.members).
Proof.
  intros Hfind. eapply findOneAndUpdate_updated;
    [exact move_alice_cast|exact Hfind|].
  apply apply_set_accepts; [left|]; vm_compute; eauto.
Qed.

Lemma not_found_is_logged_with_filter_witness :
  Model.cast_filter (Sample.by_email "nobody@example.com")
  = Ok (Sample.by_email "nobody@example.com")
  ∧ Model.cast_update (set_of Sample.move_alice) = Ok Sample.new_address
  ∧ Forall (λ doc, ¬ Sample.by_email "nobody@example.com" ⊆ doc)
      (collection Sample.members)
  ∧ AbstractRepository.findOneAndUpdate (Sample.by_email "nobody@example.com")
      Sample.move_alice Sample.members
    = (Throw (NotFoundException "Document not found"),
       with_logged
         [{| log_message := "Document was not found with filterQuery: ";
             log_filter := Sample.by_email "nobody@example.com" |}]
         Sample.members).
Proof.
  split_and!; [apply by_email_cast|exact move_alice_cast|apply nobody_matches|].
  destruct (not_found_is_logged_with_filter
              (Sample.by_email "nobody@example.com") _ Sample.move_alice _
              Sample.members (by_email_cast _) move_alice_cast nobody_matches)
    as (_ & -> & _).
  reflexivity.
Defined.

(** The members with Alice's identifier, as the client writes it: Alice,
    and not Erin. *)
Lemma find_returns_the_matches_witness :
  Model.cast_filter {["_id" := VString Sample.alice_id]}
  = Ok {["_id" := VObjectId 1%N]}
  ∧ ∃ docs,
      AbstractRepository.find {["_id" := VString Sample.alice_id]} Sample.members
      = (Ok docs, Sample.members)
      ∧ Sample.alice ∈ docs
      ∧ Sample.erin ∉ docs.
Proof.
  split; [exact alice_id_cast|].
  destruct (find_returns_the_matches {["_id" := VString Sample.alice_id]}
              {["_id" := VObjectId 1%N]} Sample.members alice_id_cast)
    as [(docs & Hrun & _ & Hdocs) _].
  exists docs. split; [exact Hrun|]. split.
  - apply (proj2 (Hdocs Sample.alice)). split; [apply list_elem_of_here|].
    apply (bool_decide_unpack _). vm_compute. exact I.
  - intros Hin. apply (proj1 (Hdocs Sample.erin)) in Hin as [_ Hsub].
    revert Hsub. apply (bool_decide_unpack _). vm_compute. exact I.
Defined.

Lemma collection_length_after_write_witness :
  ∃ doc w',
    AbstractRepository.create Sample.next_ObjectId Sample.dave Sample.two_users
      = (Ok doc, w')
    ∧ length (collection w') = 3%nat.
Proof.
  pose proof (create_in_wf_world Sample.next_ObjectId next_ObjectId_fresh
                Sample.dave Sample.two_users two_users_wf) as Hrun.
  eexists _, _. split; [exact Hrun|].
  exact (proj1 (collection_length_after_write Sample.next_ObjectId Sample.dave
                  ∅ Sample.move_alice Sample.two_users) _ _ Hrun).
Defined.

(** Alice moves, and the request is sent again. *)
Lemma findOneAndUpdate_by_id_twice_witness :
  wf_collection (collection Sample.members)
  ∧ ∃ doc' w',
      AbstractRepository.findOneAndUpdate {["_id" := VString Sample.alice_id]}
        Sample.move_alice Sample.members = (Ok doc', w')
      ∧ AbstractRepository.findOneAndUpdate {["_id" := VString Sample.alice_id]}
          Sample.move_alice w' = (Ok doc', w').
Proof.
  split; [apply members_wf_collection|].
  pose proof (alice_moves _ alice_is_first_by_id) as Hrun.
  eexists _, _. split; [exact Hrun|].
  exact (findOneAndUpdate_by_id_twice _ _ _ _ _ members_wf_collection Hrun).
Defined.

(** Alice moves; Erin is where she was. *)
Lemma findOneAndUpdate_keeps_other_documents_witness :
  wf_collection (collection Sample.members)
  ∧ ∃ doc' w',
      AbstractRepository.findOneAndUpdate (Sample.by_email "alice@example.com")
        Sample.move_alice Sample.members = (Ok doc', w')
      ∧ AbstractRepository.findOne {["_id" := VObjectId 2%N]} w'
        = (Ok Sample.erin, w').
Proof.
  split; [apply members_wf_collection|].
  assert (list_find (Model.matches (Sample.by_email "alice@example.com"))
            (collection Sample.members) = Some (0%nat, Sample.alice)) as Hfind
    by (vm_compute; reflexivity).
  pose proof (alice_moves _ Hfind) as Hrun.
  eexists _, _. split; [exact Hrun|].
  apply (findOneAndUpdate_keeps_other_documents _ _ _ _ _ Sample.erin _
           members_wf_collection Hrun erin_is_stored); [reflexivity|].
  vm_compute. discriminate.
Defined.

(** Alice leaves; Erin is where she was. *)
Lemma findOneAndDelete_keeps_other_documents_witness :
  wf_collection (collection Sample.members)
  ∧ ∃ w',
      AbstractRepository.findOneAndDelete (Sample.by_email "alice@example.com")
        Sample.members = (Ok Sample.alice, w')
      ∧ AbstractRepository.findOne {["_id" := VObjectId 2%N]} w'
        = (Ok Sample.erin, w').
Proof.
  split; [apply members_wf_collection|].
  assert (AbstractRepository.findOneAndDelete
            (Sample.by_email "alice@example.com") Sample.members
          = (Ok Sample.alice,
             with_collection (delete 0%nat (collection Sample.members))
               Sample.members)) as Hrun.
  { apply findOneAndDelete_deleted. vm_compute. reflexivity. }
  eexists. split; [exact Hrun|].
  apply (findOneAndDelete_keeps_other_documents _ _ _ _ Sample.erin _
           members_wf_collection Hrun erin_is_stored); [reflexivity|].
  vm_compute. discriminate.
Defined.

(** Dave signs up and is removed. *)
Lemma create_then_delete_restores_collection_witness :
  wf Sample.two_users
  ∧ ∃ o doc w1 w2,
      AbstractRepository.create Sample.next_ObjectId Sample.dave Sample.two_users
        = (Ok doc, w1)
      ∧ AbstractRepository.findOneAndDelete {["_id" := VObjectId o]} w1
        = (Ok doc, w2)
      ∧ collection w2 = [Sample.alice; Sample.bob].
Proof.
  split; [apply two_users_wf|].
  destruct (create_then_delete_restores_collection Sample.next_ObjectId
              next_ObjectId_fresh Sample.dave Sample.two_users two_users_wf)
    as (o & doc & w1 & w2 & Hcreate & _ & Hdelete & Hc).
  exists o, doc, w1, w2. split; [exact Hcreate|]. split; [exact Hdelete|exact Hc].
Defined.

Lemma find_after_create_witness :
  wf Sample.two_users
  ∧ ∃ doc w1,
      AbstractRepository.create Sample.next_ObjectId Sample.dave Sample.two_users
        = (Ok doc, w1)
      ∧ AbstractRepository.find ∅ w1
        = (Ok ([Sample.alice; Sample.bob] ++ [doc]), w1).
Proof.
  split; [apply two_users_wf|].
  destruct (find_after_create Sample.next_ObjectId next_ObjectId_fresh
              Sample.dave ∅ Sample.two_users two_users_wf)
    as (doc & w1 & Hcreate & Hfind).
  exists doc, w1. split; [exact Hcreate|].
  rewrite (Hfind [Sample.alice; Sample.bob]).
  - by rewrite decide_True by apply matches_empty.
  - rewrite (find_castable _ _ _ cast_filter_empty). do 2 f_equal.
Defined.

(** Dave signs up in the empty world and is found. *)
Lemma stored_documents_are_found_by_id_witness :
  ∃ w doc v,
    later Sample.next_ObjectId Sample.empty_world w
    ∧ doc ∈ collection w
    ∧ AbstractRepository.findOne {["_id" := v]} w = (Ok doc, w).
Proof.
  set (w := after Sample.next_ObjectId (CallCreate Sample.dave) Sample.empty_world).
  assert (later Sample.next_ObjectId Sample.empty_world w) as Hlater
    by (apply rtc_once; by exists (CallCreate Sample.dave)).
  assert (<["_id" := VObjectId 1%N]> Sample.dave ∈ collection w) as Hin
    by apply list_elem_of_here.
  destruct (stored_documents_are_found_by_id Sample.next_ObjectId
              next_ObjectId_fresh Sample.empty_world w _ eq_refl Hlater Hin)
    as (v & _ & Hfound).
  exists w, (<["_id" := VObjectId 1%N]> Sample.dave), v.
  split; [exact Hlater|]. split; [exact Hin|exact Hfound].
Defined.

(** Eve signs up without a password. *)
Lemma create_rejected_before_persisting_witness :
  (∀ s, Sample.anonymous !! "password" ≠ Some (VString s))
  ∧ UsersService.create Sample.next_ObjectId Sample.digest Sample.anonymous
      Sample.two_users = (Throw BcryptError, Sample.two_users).
Proof.
  assert (∀ s, Sample.anonymous !! "password" ≠ Some (VString s)) as Hpw
    by (intros s; vm_compute; discriminate).
  split; [exact Hpw|].
  exact (create_rejected_before_persisting Sample.next_ObjectId Sample.digest
           Sample.anonymous Sample.two_users Hpw).
Defined.

(** Alice tries to change her password. *)
Lemma update_with_password_is_refused_witness :
  Sample.new_password !! "password" = Some (VString "correct horse")
  ∧ UsersService.update Sample.digest Sample.alice_id Sample.new_password
      Sample.members = (Throw CastError, Sample.members).
Proof.
  assert (Sample.new_password !! "password" = Some (VString "correct horse"))
    as Hpw by (vm_compute; reflexivity).
  split; [exact Hpw|].
  apply (update_with_password_is_refused Sample.digest Sample.alice_id
           Sample.new_password "correct horse" Sample.members Hpw).
  discriminate.
Defined.

(** Alice sends an empty password, and it is stored. *)
Lemma update_without_truthy_password_witness :
  truthy (Sample.no_password !! "password") = false
  ∧ ∃ doc' w',
      UsersService.update Sample.digest Sample.alice_id Sample.no_password
        Sample.members = (Ok doc', w')
      ∧ doc' !! "password" = Some (VString EmptyString)
      ∧ collection w' = [doc'; Sample.erin].
Proof.
  assert (truthy (Sample.no_password !! "password") = false) as Hfalsy
    by (vm_compute; reflexivity).
  split; [exact Hfalsy|].
  destruct (update_without_truthy_password Sample.digest Sample.alice_id
              Sample.no_password Sample.members Hfalsy) as [Heq Hstored].
  assert (AbstractRepository.findOneAndUpdate
            {["_id" := VString Sample.alice_id]} (UpdateSet Sample.no_password)
            Sample.members
          = (Ok (Sample.no_password ∪ Sample.alice),
             with_collection (<[0%nat := Sample.no_password ∪ Sample.alice]>
                                (collection Sample.members)) Sample.members))
    as Hrun.
  { eapply findOneAndUpdate_updated;
      [vm_compute; reflexivity|exact alice_is_first_by_id|].
    apply apply_set_accepts; [left|]; vm_compute; eauto. }
  rewrite Hrun in Heq.
  eexists _, _. split; [exact Heq|]. split; [|reflexivity].
  apply (proj1 (Hstored _ _ Heq)). vm_compute. reflexivity.
Defined.

(** Alice, named by the string of her identifier, is read and removed. *)
Lemma service_finds_by_hexadecimal_string_witness :
  wf_collection (collection Sample.members)
  ∧ toHexString 1%N = Sample.alice_id
  ∧ UsersService.findOne Sample.alice_id Sample.members
    = (Ok Sample.alice, Sample.members)
  ∧ ∃ w', UsersService.remove Sample.alice_id Sample.members
          = (Ok Sample.alice, w')
          ∧ collection w' = [Sample.erin].
Proof.
  split; [apply members_wf_collection|]. split; [reflexivity|].
  destruct (service_finds_by_hexadecimal_string Sample.digest 1%N 0%nat
              Sample.alice Sample.members members_wf_collection)
    as (Hread & Hremove & _);
    [vm_compute; reflexivity|reflexivity|reflexivity|].
  split; [exact Hread|]. eexists. split; [exact Hremove|reflexivity].
Defined.

(** A string of three characters names nobody. *)
Lemma service_refuses_malformed_identifier_witness :
  ObjectId_of_hex "b0b" = None
  ∧ UsersService.findOne "b0b" Sample.members
    = (Throw CastError, Sample.members)
  ∧ UsersService.update Sample.digest "b0b" Sample.new_address Sample.members
    = (Throw CastError, Sample.members)
  ∧ UsersService.remove "b0b" Sample.members
    = (Throw CastError, Sample.members).
Proof.
  assert (ObjectId_of_hex "b0b" = None) as Hid by (vm_compute; reflexivity).
  split; [exact Hid|].
  exact (service_refuses_malformed_identifier Sample.digest "b0b"
           Sample.new_address Sample.members Hid).
Defined.

(** Sessions longer than any date: [login] throws and sets no cookie. *)
Lemma login_needs_configured_expiration_witness :
  AuthService.login Sample.utc Sample.mac Sample.carol Sample.no_cookies
    Sample.forever = (Throw TypeError, Sample.forever)
  ∧ AuthService.login Sample.utc Sample.mac Sample.carol Sample.no_cookies
      Sample.unconfigured
    = (Throw (ConfigError "JWT_EXPIRATION"), Sample.unconfigured).
Proof.
  split.
  - exact (login_needs_configured_expiration Sample.utc Sample.mac Sample.carol
             Sample.no_cookies Sample.forever).
  - exact (login_needs_configured_expiration Sample.utc Sample.mac Sample.carol
             Sample.no_cookies Sample.unconfigured).
Defined.

(** Carol logs in for two hours, half an hour before the clocks of the host
    go forward: her cookie lasts one hour. *)
Lemma login_cookie_expiry_on_local_clock_witness :
  config Sample.that_night !! "JWT_EXPIRATION" = Some 7200
  ∧ ∃ token body,
      AuthService.login Sample.eastern Sample.mac Sample.carol Sample.no_cookies
        Sample.that_night
      = (Ok (body,
             {| cookies :=
                  [{| cookie_name := "Authentication";
                      cookie_value := TokenValue token;
                      httpOnly := true;
                      expires := Some (clock Sample.that_night + 3600000) |}] |}),
         Sample.that_night).
Proof.
  assert (config Sample.that_night !! "JWT_EXPIRATION" = Some 7200) as Hn
    by (vm_compute; reflexivity).
  split; [exact Hn|].
  destruct (login_cookie_expiry_on_local_clock Sample.eastern Sample.mac
              Sample.carol Sample.no_cookies Sample.that_night 7200 Hn)
    as (token & body & Hrun); [vm_compute; discriminate|].
  exists token, body. exact Hrun.
Defined.

(** Carol logs in, and out later. *)
Lemma login_then_logout_witness :
  config Sample.empty_world !! "JWT_EXPIRATION" = Some 3600
  ∧ Z.abs (JSDate.UTC Sample.utc
             (JSDate.LocalTime Sample.utc (clock Sample.empty_world)
              + 3600 * 1000)) ≤ 8640000000000000
  ∧ ∃ body response1 response2,
      AuthController.login Sample.utc Sample.mac Sample.carol Sample.no_cookies
        Sample.empty_world = (Ok (body, response1), Sample.empty_world)
      ∧ AuthController.logout response1 Sample.members
        = (Ok (tt, response2), Sample.members)
      ∧ cookie_value <$> cookies response2 !! 1%nat = Some (TextValue EmptyString).
Proof.
  assert (config Sample.empty_world !! "JWT_EXPIRATION" = Some 3600) as Hn
    by (vm_compute; reflexivity).
  assert (Z.abs (JSDate.UTC Sample.utc
                   (JSDate.LocalTime Sample.utc (clock Sample.empty_world)
                    + 3600 * 1000)) ≤ 8640000000000000) as Hrange
    by (vm_compute; discriminate).
  split; [exact Hn|]. split; [exact Hrange|].
  destruct (login_then_logout Sample.utc Sample.mac Sample.carol
              Sample.no_cookies Sample.empty_world 3600 Sample.members Hn Hrange)
    as (body & token & expiry & response1 & response2 & Hin & Hout & Hcookies).
  exists body, response1, response2.
  split; [exact Hin|]. split; [exact Hout|]. by rewrite Hcookies.
Defined.

(** Carol under her two password hashes is one identity. *)
Lemma login_outcome_determines_identity_witness :
  config Sample.empty_world !! "JWT_EXPIRATION" = Some 3600
  ∧ AuthService.login Sample.utc Sample.mac Sample.carol Sample.no_cookies
      Sample.empty_world
    = AuthService.login Sample.utc Sample.mac Sample.carol' Sample.no_cookies
        Sample.empty_world
  ∧ _id Sample.carol = _id Sample.carol'.
Proof.
  assert (AuthService.login Sample.utc Sample.mac Sample.carol Sample.no_cookies
            Sample.empty_world
          = AuthService.login Sample.utc Sample.mac Sample.carol'
              Sample.no_cookies Sample.empty_world) as Heq by reflexivity.
  split; [vm_compute; reflexivity|]. split; [exact Heq|].
  refine (proj1 (login_outcome_determines_identity Sample.utc Sample.mac
                   Sample.carol Sample.carol' Sample.no_cookies
                   Sample.empty_world 3600 _ _ _ _ Heq));
    vm_compute; first [reflexivity|discriminate].
Defined.
